(** * HomeModel: the registry of running activities (shell/model/homemodel.py)

    A shallow embedding of [HomeModel] and of the properties its
    specification states about it.

    The Python object graph is modelled by an explicit store: every
    [HomeActivity] / [HomeRawWindow] instance lives in [heap] and is
    designated by its position there (its object identity).  The dict
    [self._activities] maps activity ids to object identities, and
    [self._current_activity] is an optional object identity, so that an
    object mutated through the dict is seen mutated through the focus
    pointer as well, as in the source.

    Signals emitted on the model, calls made on D-Bus services and log
    records are accumulated, in order, in [trace].  A raised exception
    aborts the running callback and leaves the store as it was at the
    point of the [raise].

    What the surroundings answer is part of the input: a window event
    carries the window (identifier and type), and the events that reach
    [_add_activity] carry the outcome of the session-bus lookup made there.
    The iteration order of the dict is the one of [map_to_list]; the
    theorems below hold whatever that order is. *)

From Stdlib Require Import Ascii String DecimalString DecimalN.
From stdpp Require Import base option list gmap strings sorting.

Set Default Proof Using "Type".

(** ** External collaborators *)

(** [wnck] window types. *)
Inductive WindowType :=
  | WINDOW_NORMAL | WINDOW_DESKTOP | WINDOW_DOCK | WINDOW_DIALOG
  | WINDOW_TOOLBAR | WINDOW_MENU | WINDOW_UTILITY | WINDOW_SPLASHSCREEN.

Global Instance WindowType_eq_dec : EqDecision WindowType.
Proof. solve_decision. Defined.

(** A [wnck] window as the model sees it: [window.get_xid()] and
    [window.get_window_type()]. *)
Record Window := MkWindow {
  window_xid : N;
  window_type : WindowType
}.

Global Instance Window_eq_dec : EqDecision Window.
Proof. solve_decision. Defined.

(** The D-Bus proxy of an activity service: what [service.get_id()] and
    [service.get_service_name()] answer. *)
Record Service := MkService {
  service_id : string;
  service_type : string
}.

Global Instance Service_eq_dec : EqDecision Service.
Proof. solve_decision. Defined.

(** Installable metadata of an activity type, as handed out by the bundle
    registry; opaque to the model. *)
Inductive Bundle := BundleMetadata (name : string).

Global Instance Bundle_eq_dec : EqDecision Bundle.
Proof. solve_decision. Defined.

(** Modelled from the spec: [model.bundleregistry] and
    [model.homerawwindow] are not part of the sources at hand.
    [get_bundle] is the bundle lookup of the external interfaces,
    "get_bundle(service_type: string) -> BundleMetadata | none";
    [raw_activity_id] is the "synthesized id derived from the window" under
    which a placeholder record is keyed ([HomeRawWindow.get_activity_id]). *)
Class Environment := {
  get_bundle : string → option Bundle;
  raw_activity_id : Window → string
}.

(** ** Activity records *)

(** The two classes of tracked objects.  [HomeRawWindow] is the spec's
    [Placeholder], [HomeActivity] its [Bound] record. *)
Inductive Class := HomeRawWindow | HomeActivity.

Global Instance Class_eq_dec : EqDecision Class.
Proof. solve_decision. Defined.

Record Activity := MkActivity {
  class_of : Class;
  get_activity_id : string;
  get_bundle_of : option Bundle;
  get_window : option Window;
  get_service : option Service;
  get_launch_time : nat;
  get_launched : bool;
  (** [activity.connect('launch-timeout', ...)] was called on the object *)
  launch_timeout_connected : bool
}.

(** [act.get_xid()]: the identifier of the attached window, if any. *)
Definition get_xid (a : Activity) : option N := window_xid <$> get_window a.

(** Modelled from the spec: the constructor of [HomeRawWindow], a
    placeholder created by "a window-open event with no matching service
    (Placeholder, launched=true)", keyed by a synthesized id, with no
    service, its launch time "assigned at record-creation time". *)
Definition new_HomeRawWindow `{!Environment} (window : Window) (now : nat) : Activity :=
  {| class_of := HomeRawWindow;
     get_activity_id := raw_activity_id window;
     get_bundle_of := None;
     get_window := Some window;
     get_service := None;
     get_launch_time := now;
     get_launched := true;
     launch_timeout_connected := false |}.

(** Modelled from the spec: the constructor of [HomeActivity], "a
    Bound-but-windowless record (launched=false)". *)
Definition new_HomeActivity (bundle : Bundle) (activity_id : string) (now : nat) : Activity :=
  {| class_of := HomeActivity;
     get_activity_id := activity_id;
     get_bundle_of := Some bundle;
     get_window := None;
     get_service := None;
     get_launch_time := now;
     get_launched := false;
     launch_timeout_connected := false |}.

(** Modelled from the spec: [set_service] attaches the service reference. *)
Definition set_service (service : Service) (a : Activity) : Activity :=
  {| class_of := class_of a;
     get_activity_id := get_activity_id a;
     get_bundle_of := get_bundle_of a;
     get_window := get_window a;
     get_service := Some service;
     get_launch_time := get_launch_time a;
     get_launched := get_launched a;
     launch_timeout_connected := launch_timeout_connected a |}.

(** Modelled from the spec: [set_window], "attach window_ref to it, set
    launched=true". *)
Definition set_window (window : Window) (a : Activity) : Activity :=
  {| class_of := class_of a;
     get_activity_id := get_activity_id a;
     get_bundle_of := get_bundle_of a;
     get_window := Some window;
     get_service := get_service a;
     get_launch_time := get_launch_time a;
     get_launched := true;
     launch_timeout_connected := launch_timeout_connected a |}.

(** [activity.connect('launch-timeout', self._activity_launch_timeout_cb)] *)
Definition connect_launch_timeout (a : Activity) : Activity :=
  {| class_of := class_of a;
     get_activity_id := get_activity_id a;
     get_bundle_of := get_bundle_of a;
     get_window := get_window a;
     get_service := get_service a;
     get_launch_time := get_launch_time a;
     get_launched := get_launched a;
     launch_timeout_connected := true |}.

(** ** Observable effects *)

(** The four signals of [__gsignals__]; the argument is the identity of
    the object passed along ([None] for Python's [None]). *)
Inductive Signal :=
  | activity_launched (a : nat)
  | activity_added (a : nat)
  | activity_removed (a : nat)
  | active_activity_changed (a : option nat).

Global Instance Signal_eq_dec : EqDecision Signal.
Proof. solve_decision. Defined.

Inductive LogRecord :=
  | log_instance_launch_detected (name : string)
  | log_removing_bogus_raw_activity (activity_id : string) (xid : N)
  | log_launch_failed (activity_id : string)
  | log_not_yet_launched (xid : N)
  | log_no_model_for_window (xid : N)
  | log_no_model_for_activity (activity_id : string).

Global Instance LogRecord_eq_dec : EqDecision LogRecord.
Proof. solve_decision. Defined.

Inductive Effect :=
  | Emit (s : Signal)
  | SetActive (service : Service) (active : bool)
  | LogDebug (r : LogRecord)
  | LogError (r : LogRecord).

Global Instance Effect_eq_dec : EqDecision Effect.
Proof. solve_decision. Defined.

(** Exceptions; the payload is the value interpolated in the message.
    The spec calls the [RuntimeError] of [_add_activity]
    [MissingBundleError] and the [ValueError] of [notify_activity_launch]
    [UnknownServiceTypeError]. *)
Inductive Exn :=
  | RuntimeError (act_type : string)
  | ValueError (what : string)
  | KeyError (key : string)
  | IndexError
  | AttributeError.

Global Instance Exn_eq_dec : EqDecision Exn.
Proof. solve_decision. Defined.

(** ** The model state *)

Record HomeModel := MkHomeModel {
  heap : list Activity;
  clock : nat;
  _activities : gmap string nat;
  _current_activity : option nat;
  trace : list Effect
}.

(** [HomeModel.__init__] *)
Definition init : HomeModel :=
  {| heap := []; clock := 0; _activities := ∅;
     _current_activity := None; trace := [] |}.

(** ** A state and exception monad for the callbacks *)

Definition M (A : Type) : Type := HomeModel → (Exn + A) * HomeModel.

Definition ret {A} (x : A) : M A := λ st, (inr x, st).

Definition bind {A B} (m : M A) (k : A → M B) : M B :=
  λ st, match m st with
        | (inl e, st') => (inl e, st')
        | (inr x, st') => k x st'
        end.

Definition raise {A} (e : Exn) : M A := λ st, (inl e, st).

Definition get : M HomeModel := λ st, (inr st, st).

(** the outcome of a call that does not touch the model *)
Definition result {A} (r : Exn + A) : M A := λ st, (r, st).

Declare Scope homemodel_scope.
Delimit Scope homemodel_scope with hm.
Notation "'let*' x ':=' m 'in' k" := (bind m (λ x, k))
  (at level 10, x name, m at level 100, k at level 200) : homemodel_scope.
Notation "m ';;' k" := (bind m (λ _, k))
  (at level 100, k at level 200, right associativity) : homemodel_scope.
Local Open Scope homemodel_scope.

(** Store updates: one per kind of write the callbacks perform. *)

(** appending to the trace *)
Definition log (e : Effect) (st : HomeModel) : HomeModel :=
  {| heap := heap st; clock := clock st;
     _activities := _activities st;
     _current_activity := _current_activity st;
     trace := trace st ++ [e] |}.

(** [self._current_activity = a] *)
Definition focus (a : option nat) (st : HomeModel) : HomeModel :=
  {| heap := heap st; clock := clock st;
     _activities := _activities st;
     _current_activity := a;
     trace := trace st |}.

(** replacing the contents of [self._activities] *)
Definition store (d : gmap string nat) (st : HomeModel) : HomeModel :=
  {| heap := heap st; clock := clock st;
     _activities := d;
     _current_activity := _current_activity st;
     trace := trace st |}.

(** Object creation: the new object takes the next identity and, modelled
    from the spec ("launch_time strictly increases with registry insertion
    order"), the current value of a logical clock, which then advances. *)
Definition allocate (mk : nat → Activity) (st : HomeModel) : HomeModel :=
  {| heap := heap st ++ [mk (clock st)]; clock := S (clock st);
     _activities := _activities st;
     _current_activity := _current_activity st;
     trace := trace st |}.

(** overwriting the object designated by [a] *)
Definition update (a : nat) (obj : Activity) (st : HomeModel) : HomeModel :=
  {| heap := <[a := obj]> (heap st); clock := clock st;
     _activities := _activities st;
     _current_activity := _current_activity st;
     trace := trace st |}.

(** appending several effects in order *)
Definition logs (es : list Effect) (st : HomeModel) : HomeModel :=
  foldl (λ s e, log e s) st es.

Definition tell (e : Effect) : M unit := λ st, (inr (), log e st).

(** [self.emit(signal, arg)] *)
Definition emit (s : Signal) : M unit := tell (Emit s).

Definition set_current_activity (a : option nat) : M unit := λ st,
  (inr (), focus a st).

Definition set_activities (d : gmap string nat) : M unit := λ st,
  (inr (), store d st).

Definition alloc (mk : nat → Activity) : M nat := λ st,
  (inr (length (heap st)), allocate mk st).

(** Reading an object.  An identity that designates nothing cannot arise
    in Python; the model answers [AttributeError], which no reachable
    state meets (see [reachable_wf]). *)
Definition deref (a : nat) : M Activity := λ st,
  match heap st !! a with
  | Some obj => (inr obj, st)
  | None => (inl AttributeError, st)
  end.

(** In-place mutation of an object. *)
Definition mutate (a : nat) (f : Activity → Activity) : M unit := λ st,
  match heap st !! a with
  | Some obj => (inr (), update a (f obj) st)
  | None => (inl AttributeError, st)
  end.

(** ** Text

    A Python text is held as the bytes of its UTF-8 encoding, which is also
    how a string literal of this file is read.  Identifiers, service names
    and bus names are only compared, concatenated and cut after an ASCII
    prefix, which the encoding preserves; [isdigit] and [int] look at the
    characters, which [decode] gives back. *)

Definition _SERVICE_NAME : string := "org.laptop.Activity".

(** [s.startswith(p)] *)
Definition startswith (s p : string) : bool := String.prefix p s.

(** [s[n:]], for a text whose first [n] characters are ASCII (the source
    cuts a name only after [name.startswith(_SERVICE_NAME)]). *)
Definition string_from (n : nat) (s : string) : string :=
  String.substring n (String.length s - n) s.

(** the payload of a continuation byte [10xxxxxx] *)
Definition continuation (c : ascii) : option N :=
  let b := N_of_ascii c in
  if ((0x80 <=? b) && (b <? 0xC0))%N then Some (b - 0x80)%N else None.

(** the number of bytes a leading byte announces *)
Definition utf8_length (b : N) : nat :=
  if ((0xC0 <=? b) && (b <? 0xE0))%N then 2
  else if ((0xE0 <=? b) && (b <? 0xF0))%N then 3
  else if ((0xF0 <=? b) && (b <? 0xF8))%N then 4
  else 0.

(** Bytes that encode no character (a stray or missing continuation, an
    overlong form, a surrogate, a value beyond U+10FFFF) never come from a
    text; they read as U+FFFD. *)
Definition scalar (least cp : N) : N :=
  if ((cp <? least) || ((0xD800 <=? cp) && (cp <? 0xE000))
      || (0x10FFFF <? cp))%N
  then 0xFFFD%N else cp.

(** The characters of a text, as code points. *)
Fixpoint decode (s : string) : list N :=
  match s with
  | EmptyString => []
  | String c s1 =>
      let b := N_of_ascii c in
      if (b <? 0x80)%N then b :: decode s1 else
      match utf8_length b, s1 with
      | 2, String c1 s2 =>
          match continuation c1 with
          | Some x1 => scalar 0x80 ((b - 0xC0) * 64 + x1)%N :: decode s2
          | None => 0xFFFD%N :: decode s1
          end
      | 3, String c1 (String c2 s3) =>
          match continuation c1, continuation c2 with
          | Some x1, Some x2 =>
              scalar 0x800 (((b - 0xE0) * 64 + x1) * 64 + x2)%N :: decode s3
          | _, _ => 0xFFFD%N :: decode s1
          end
      | 4, String c1 (String c2 (String c3 s4)) =>
          match continuation c1, continuation c2, continuation c3 with
          | Some x1, Some x2, Some x3 =>
              scalar 0x10000 ((((b - 0xF0) * 64 + x1) * 64 + x2) * 64 + x3)%N
                :: decode s4
          | _, _, _ => 0xFFFD%N :: decode s1
          end
      | _, _ => 0xFFFD%N :: decode s1
      end
  end.

(** The Unicode character database (14.0.0).  The decimal digits
    (Numeric_Type=Decimal) come in runs of ten, zero to nine; the table
    holds the zero of each run. *)
Definition decimal_zeros : list N :=
  [0x30; 0x660; 0x6F0; 0x7C0; 0x966; 0x9E6; 0xA66; 0xAE6;
   0xB66; 0xBE6; 0xC66; 0xCE6; 0xD66; 0xDE6; 0xE50; 0xED0;
   0xF20; 0x1040; 0x1090; 0x17E0; 0x1810; 0x1946; 0x19D0; 0x1A80;
   0x1A90; 0x1B50; 0x1BB0; 0x1C40; 0x1C50; 0xA620; 0xA8D0; 0xA900;
   0xA9D0; 0xA9F0; 0xAA50; 0xABF0; 0xFF10; 0x104A0; 0x10D30; 0x11066;
   0x110F0; 0x11136; 0x111D0; 0x112F0; 0x11450; 0x114D0; 0x11650; 0x116C0;
   0x11730; 0x118E0; 0x11950; 0x11C50; 0x11D50; 0x11DA0; 0x16A60; 0x16AC0;
   0x16B50; 0x1D7CE; 0x1D7D8; 0x1D7E2; 0x1D7EC; 0x1D7F6; 0x1E140; 0x1E2F0;
   0x1E950; 0x1FBF0]%N.

(** The characters of Numeric_Type=Digit that are no decimal digits
    (superscripts, subscripts, circled and dotted digits and the like), as
    inclusive ranges. *)
Definition other_digits : list (N * N) :=
  [(0xB2, 0xB3); (0xB9, 0xB9); (0x1369, 0x1371); (0x19DA, 0x19DA);
   (0x2070, 0x2070); (0x2074, 0x2079); (0x2080, 0x2089); (0x2460, 0x2468);
   (0x2474, 0x247C); (0x2488, 0x2490); (0x24EA, 0x24EA); (0x24F5, 0x24FD);
   (0x24FF, 0x24FF); (0x2776, 0x277E); (0x2780, 0x2788); (0x278A, 0x2792);
   (0x10A40, 0x10A43); (0x10E60, 0x10E68); (0x11052, 0x1105A);
   (0x1F100, 0x1F10A)]%N.

(** [unicodedata.decimal(c)]: the value of a decimal digit. *)
Definition decimal (c : N) : option N :=
  match List.find (λ z, (z <=? c) && (c <? z + 10))%N decimal_zeros with
  | Some z => Some (c - z)%N
  | None => None
  end.

(** [c.isdigit()] for one character: Numeric_Type is Decimal or Digit. *)
Definition is_digit (c : N) : bool :=
  match decimal c with
  | Some _ => true
  | None => existsb (λ r, (r.1 <=? c) && (c <=? r.2))%N other_digits
  end.

(** [s.isdigit()]: every character is a digit and there is at least one. *)
Definition isdigit (s : string) : bool :=
  match decode s with
  | [] => false
  | cs => forallb is_digit cs
  end.

Fixpoint int_from (acc : N) (cs : list N) : option N :=
  match cs with
  | [] => Some acc
  | c :: cs' =>
      match decimal c with
      | Some d => int_from (acc * 10 + d)%N cs'
      | None => None
      end
  end.

(** [int(s)] for a text without sign, blanks or underscores, which is
    what the source applies it to (a text that passed [isdigit()]): the
    decimal digits of any script are read in base ten, and [ValueError] is
    raised for the empty text and for a character that is no decimal
    digit, such as a superscript two.  The number of digits is not
    bounded, as in Python 2, the language of the source ([has_key], a
    list from [values()]); the bound that CPython 3.11 puts on such
    conversions by default (4300 digits) is beyond the 255 bytes of a bus
    name. *)
Definition int (s : string) : Exn + N :=
  match decode s with
  | [] => inl (ValueError s)
  | cs =>
      match int_from 0 cs with
      | Some n => inr n
      | None => inl (ValueError s)
      end
  end.

(** Python truth value of a string. *)
Definition nonempty (s : string) : bool :=
  match s with EmptyString => false | _ => true end.

(** ** Sorting by key *)

(** [list.sort(key=...)] is stable and ascending; insertion sort, where an
    element is placed before the first one whose key is not smaller, has
    the same result. *)
Fixpoint insert_by {A} (key : A → nat) (x : A) (l : list A) : list A :=
  match l with
  | [] => [x]
  | y :: l' =>
      if decide (key x ≤ key y) then x :: y :: l' else y :: insert_by key x l'
  end.

Fixpoint sort_by {A} (key : A → nat) (l : list A) : list A :=
  match l with
  | [] => []
  | x :: l' => insert_by key x (sort_by key l')
  end.

(** ** The methods of [HomeModel] *)

Section HomeModel.
Context `{!Environment}.

Definition get_current_activity (st : HomeModel) : option nat :=
  _current_activity st.

(** [self._activities.values()] *)
Definition values (st : HomeModel) : list nat :=
  (map_to_list (_activities st)).*2.

(** [a.get_launch_time()] for the object designated by [a] *)
Definition launch_time_of (st : HomeModel) (a : nat) : nat :=
  from_option get_launch_time 0 (heap st !! a).

Definition _get_ordered_activities (st : HomeModel) : list nat :=
  sort_by (launch_time_of st) (values st).

Definition __iter__ (st : HomeModel) : list nat :=
  _get_ordered_activities st.

Definition __len__ (st : HomeModel) : nat := size (_activities st).

(** [ordered_acts[i]]: a negative index counts from the end, an index
    out of range raises [IndexError]. *)
Definition __getitem__ (st : HomeModel) (i : Z) : Exn + nat :=
  let ordered_acts := _get_ordered_activities st in
  let n := Z.of_nat (length ordered_acts) in
  let j := if decide (i < 0)%Z then (i + n)%Z else i in
  if decide (0 ≤ j)%Z then
    match ordered_acts !! Z.to_nat j with
    | Some a => inr a
    | None => inl IndexError
    end
  else inl IndexError.

(** [ordered_acts.index(obj)]: the first position holding [obj],
    [ValueError] when there is none. *)
Definition index (st : HomeModel) (obj : nat) : Exn + nat :=
  match list_find (λ a, a = obj) (_get_ordered_activities st) with
  | Some (i, _) => inr i
  | None => inl (ValueError "not in list")
  end.

(** [self._activities[key] = a] *)
Definition dict_setitem (key : string) (a : nat) : M unit := λ st,
  set_activities (<[key := a]> (_activities st)) st.

(** [del self._activities[key]] *)
Definition dict_delitem (key : string) : M unit := λ st,
  match _activities st !! key with
  | Some _ => set_activities (delete key (_activities st)) st
  | None => (inl (KeyError key), st)
  end.

(** [act.get_launched() and act.get_xid() == xid] *)
Definition holds_xid (st : HomeModel) (xid : N) (a : nat) : bool :=
  match heap st !! a with
  | Some act => get_launched act && bool_decide (get_xid act = Some xid)
  | None => false
  end.

Definition _get_activity_by_xid (xid : N) (st : HomeModel) : option nat :=
  snd <$> list_find (λ a, holds_xid st xid a = true) (values st).

(** [service.set_active(active)] on the service of an object, if it
    has one *)
Definition service_set_active (a : nat) (active : bool) : M unit :=
  let* act := deref a in
  match get_service act with
  | Some service => tell (SetActive service active)
  | None => ret ()
  end.

Definition _notify_activity_activation
    (old_activity new_activity : option nat) : M unit :=
  if decide (old_activity = new_activity) then ret () else
  match old_activity with
  | Some a => service_set_active a false
  | None => ret ()
  end ;;
  match new_activity with
  | Some a => service_set_active a true
  | None => ret ()
  end.

(** [screen.get_active_window()] is what the event delivers. *)
Definition _active_window_changed_cb (active : option Window) : M unit :=
  match active with
  | None =>
      emit (active_activity_changed None) ;;
      let* st := get in
      _notify_activity_activation (_current_activity st) None
  | Some window =>
      if decide (window_type window ≠ WINDOW_NORMAL) then ret () else
      let xid := window_xid window in
      let* st := get in
      match _get_activity_by_xid xid st with
      | Some act =>
          let* obj := deref act in
          if get_launched obj then
            _notify_activity_activation (_current_activity st) (Some act) ;;
            set_current_activity (Some act)
          else
            _notify_activity_activation (_current_activity st) None ;;
            set_current_activity None ;;
            tell (LogError (log_not_yet_launched xid))
      | None =>
          _notify_activity_activation (_current_activity st) None ;;
          set_current_activity None ;;
          tell (LogError (log_no_model_for_window xid))
      end ;;
      let* st' := get in
      emit (active_activity_changed (_current_activity st'))
  end.

(** The key is [home_window.get_activity_id()], which the constructor
    has set to the synthesized id. *)
Definition _add_window (window : Window) : M unit :=
  let* home_window := alloc (new_HomeRawWindow window) in
  dict_setitem (raw_activity_id window) home_window ;;
  emit (activity_added home_window).

(** [bus] is the outcome of the proxy lookup
    [dbus.Interface(bus.get_object(...))] at the time of the call:
    [None] stands for the caught [DBusException]. *)
Definition _add_activity (window : Window) (bus : option Service) : M unit :=
  match bus with
  | None => _add_window window
  | Some service =>
      let act_id := service_id service in
      let act_type := service_type service in
      let* st := get in
      let* activity :=
        match _activities st !! act_id with
        | Some a => ret a
        | None =>
            match get_bundle act_type with
            | None => raise (RuntimeError act_type)
            | Some bundle =>
                let* a := alloc (new_HomeActivity bundle act_id) in
                dict_setitem act_id a ;;
                ret a
            end
        end in
      mutate activity (set_service service) ;;
      mutate activity (set_window window) ;;
      emit (activity_added activity)
  end.

Definition _internal_remove_activity (activity : nat) : M unit :=
  let* st := get in
  (if decide (Some activity = _current_activity st)
   then set_current_activity None else ret ()) ;;
  emit (activity_removed activity) ;;
  let* act := deref activity in
  dict_delitem (get_activity_id act).

Definition _remove_activity (xid : N) : M unit :=
  let* st := get in
  match _get_activity_by_xid xid st with
  | Some activity => _internal_remove_activity activity
  | None => tell (LogError (log_no_model_for_window xid))
  end.

Definition _window_opened_cb (window : Window) (bus : option Service) : M unit :=
  if decide (window_type window = WINDOW_NORMAL)
  then _add_activity window bus else ret ().

Definition _window_closed_cb (window : Window) : M unit :=
  (if decide (window_type window = WINDOW_NORMAL)
   then _remove_activity (window_xid window) else ret ()) ;;
  let* st := get in
  if decide (_activities st = ∅) then
    emit (active_activity_changed None) ;;
    _notify_activity_activation (_current_activity st) None
  else ret ().

Definition _dbus_name_owner_changed_cb
    (name old new : string) (bus : option Service) : M unit :=
  if startswith name _SERVICE_NAME && nonempty new && negb (nonempty old) then
    let xid := string_from (String.length _SERVICE_NAME) name in
    if negb (isdigit xid) then ret () else
    tell (LogDebug (log_instance_launch_detected name)) ;;
    let* xid := result (int xid) in
    let* st := get in
    match _get_activity_by_xid xid st with
    | Some act =>
        let* obj := deref act in
        match class_of obj with
        | HomeRawWindow =>
            tell (LogDebug
                    (log_removing_bogus_raw_activity (get_activity_id obj) xid)) ;;
            _internal_remove_activity act ;;
            match get_window obj with
            | Some window => _add_activity window bus
            | None => raise AttributeError
            end
        | HomeActivity => ret ()
        end
    | None => ret ()
    end
  else ret ().

Definition _activity_launch_timeout_cb (activity : nat) : M unit :=
  let* act := deref activity in
  let* st := get in
  if decide (is_Some (_activities st !! get_activity_id act))
  then _internal_remove_activity activity
  else ret ().

(** The object is created and its ['launch-timeout'] signal connected
    before it is stored. *)
Definition notify_activity_launch (activity_id service_name : string) : M unit :=
  match get_bundle service_name with
  | None => raise (ValueError service_name)
  | Some bundle =>
      let* activity :=
        alloc (λ now, connect_launch_timeout
                        (new_HomeActivity bundle activity_id now)) in
      dict_setitem activity_id activity ;;
      emit (activity_launched activity)
  end.

Definition notify_activity_launch_failed (activity_id : string) : M unit :=
  let* st := get in
  match _activities st !! activity_id with
  | Some activity =>
      tell (LogDebug (log_launch_failed activity_id)) ;;
      _internal_remove_activity activity
  | None => tell (LogError (log_no_model_for_activity activity_id))
  end.

(** ** Event delivery *)

(** What the adapters, the timers and the callers deliver to the model.
    A window event carries the window; the events that lead to
    [_add_activity] carry what the session bus answers at that time. *)
Inductive Event :=
  | window_opened (window : Window) (bus : option Service)
  | window_closed (window : Window)
  | active_window_changed (active : option Window)
  | name_owner_changed (name old new : string) (bus : option Service)
  | launch_timeout (activity : nat)
  | launch (activity_id service_name : string)
  | launch_failed (activity_id : string).

(** The ['launch-timeout'] signal of an object reaches the model only
    through a connected handler. *)
Definition _launch_timeout_signal (activity : nat) : M unit := λ st,
  match heap st !! activity with
  | Some act =>
      if launch_timeout_connected act
      then _activity_launch_timeout_cb activity st
      else (inr (), st)
  | None => (inr (), st)
  end.

Definition handle (e : Event) : M unit :=
  match e with
  | window_opened window bus => _window_opened_cb window bus
  | window_closed window => _window_closed_cb window
  | active_window_changed active => _active_window_changed_cb active
  | name_owner_changed name old new bus =>
      _dbus_name_owner_changed_cb name old new bus
  | launch_timeout activity => _launch_timeout_signal activity
  | launch activity_id service_name =>
      notify_activity_launch activity_id service_name
  | launch_failed activity_id => notify_activity_launch_failed activity_id
  end.

(** The state an event leaves behind, whether or not its callback
    raised: the event loop reports the exception and goes on. *)
Definition step (st : HomeModel) (e : Event) : HomeModel := (handle e st).2.

Definition run (st : HomeModel) (es : list Event) : HomeModel :=
  foldl step st es.

Inductive reachable : HomeModel → Prop :=
  | reachable_init : reachable init
  | reachable_step st e : reachable st → reachable (step st e).

End HomeModel.

(** ** Example data *)

Definition example_bundles (service_type : string) : option Bundle :=
  if decide (service_type = "Chat") then Some (BundleMetadata "Chat") else None.

Definition example_raw_activity_id (window : Window) : string :=
  "rawwindow" +:+ DecimalString.NilZero.string_of_uint (N.to_uint (window_xid window)).

Definition example_env : Environment :=
  {| get_bundle := example_bundles; raw_activity_id := example_raw_activity_id |}.

Definition W1 : Window := MkWindow 42 WINDOW_NORMAL.
Definition W2 : Window := MkWindow 43 WINDOW_NORMAL.
Definition dock : Window := MkWindow 7 WINDOW_DOCK.
Definition S1 : Service := MkService "act1" "Chat".
Definition S2 : Service := MkService "act2" "Chat".

Definition dialog42 : Window := MkWindow 42 WINDOW_DIALOG.

(** [act1] announced by the shell, then bound to its window and service *)
Definition bound_act1 : HomeModel :=
  @run example_env init [launch "act1" "Chat"; window_opened W1 (Some S1)].

(** the object [act1] is then *)
Definition act1_bound : Activity :=
  set_window W1
    (set_service S1
       (connect_launch_timeout
          (new_HomeActivity (BundleMetadata "Chat") "act1" 0))).

(** a recovered [act1] that has the focus *)
Definition focused_act1 : HomeModel :=
  @run example_env init
    [window_opened W1 (Some S1); active_window_changed (Some W1)].

(** window 42 opens without a service, changes its type and closes unnoticed;
    its identifier is then reused by the window of [act1] *)
Definition stale_window : HomeModel :=
  @run example_env init
    [window_opened W1 None; window_closed dialog42;
     window_opened W1 (Some S1)].

Definition launching_act1 : HomeModel :=
  @run example_env init [launch "act1" "Chat"].


Definition three_records : HomeModel :=
  @run example_env init
    [window_opened W1 None; launch "act1" "Chat"; launch "act2" "Chat"].

Definition fresh_trace : list Event :=
  [window_opened W1 None;
   name_owner_changed "org.laptop.Activity42" "" ":1.5" (Some S1);
   launch "act2" "Chat";
   window_opened W2 (Some S2);
   window_closed W1].

(** ** Well-formed states *)

(** What every object of the store satisfies: its launch time is the
    logical time of its creation, it counts as launched exactly when it
    has a window, and a raw window record always has one. *)
Definition obj_ok (a : nat) (obj : Activity) : Prop :=
  get_launch_time obj = a ∧
  (get_launched obj = true ↔ is_Some (get_window obj)) ∧
  (class_of obj = HomeRawWindow → is_Some (get_window obj)).

Record wf (st : HomeModel) : Prop := {
  wf_tracked key a :
    _activities st !! key = Some a →
    ∃ obj, heap st !! a = Some obj ∧ get_activity_id obj = key;
  wf_current a : _current_activity st = Some a → a < length (heap st);
  wf_clock : clock st = length (heap st);
  wf_heap a obj : heap st !! a = Some obj → obj_ok a obj
}.

(** The record registered under [key], read through the store. *)
Definition lookup_activity (st : HomeModel) (key : string) : option Activity :=
  _activities st !! key ≫= λ a : nat, heap st !! a.

(** The [set_active(False)] call of [_notify_activity_activation(old, None)]. *)
Definition deactivation (st : HomeModel) (old : option nat) : list Effect :=
  match (old ≫= λ a : nat, heap st !! a) ≫= get_service with
  | Some service => [SetActive service false]
  | None => []
  end.

(** The name refers to window [xid]: it passes the guards of
    [_dbus_name_owner_changed_cb] and its suffix reads as [xid]. *)
Definition names_window (name : string) (xid : N) : Prop :=
  startswith name _SERVICE_NAME = true ∧
  isdigit (string_from (String.length _SERVICE_NAME) name) = true ∧
  int (string_from (String.length _SERVICE_NAME) name) = inr xid.


(** The window identifiers held by tracked records are pairwise distinct,
    and so are the activity ids. *)
Definition unique_windows (st : HomeModel) : Prop :=
  ∀ key1 key2 obj1 obj2 xid,
    lookup_activity st key1 = Some obj1 →
    lookup_activity st key2 = Some obj2 →
    get_xid obj1 = Some xid → get_xid obj2 = Some xid →
    key1 = key2.

Definition unique_ids (st : HomeModel) : Prop :=
  ∀ key1 key2 obj1 obj2,
    lookup_activity st key1 = Some obj1 →
    lookup_activity st key2 = Some obj2 →
    get_activity_id obj1 = get_activity_id obj2 →
    key1 = key2.

(** Some tracked record holds the window identifier [xid]. *)
Definition window_tracked (st : HomeModel) (xid : N) : Prop :=
  ∃ key obj, lookup_activity st key = Some obj ∧ get_xid obj = Some xid.

(** ** States left by the adding paths *)

Section Outcomes.
Context `{!Environment}.

(** the state [_add_window] leaves *)
Definition added_window (window : Window) (st : HomeModel) : HomeModel :=
log (Emit (activity_added (length (heap st))))
  (store (<[raw_activity_id window := length (heap st)]> (_activities st))
     (allocate (new_HomeRawWindow window) st)).

(** the state [_add_activity] leaves when the service's id is registered *)
Definition bound_existing (window : Window) (service : Service) (a : nat)
  (obj : Activity) (st : HomeModel) : HomeModel :=
log (Emit (activity_added a))
  (update a (set_window window (set_service service obj)) st).

(** the state [_add_activity] leaves for a recovered activity *)
Definition bound_recovered (window : Window) (service : Service)
  (bundle : Bundle) (st : HomeModel) : HomeModel :=
log (Emit (activity_added (length (heap st))))
  (store (<[service_id service := length (heap st)]> (_activities st))
     (allocate (λ now, set_window window
                    (set_service service
                       (new_HomeActivity bundle (service_id service) now)))
          st)).

End Outcomes.

(** A window-open event is fresh when it concerns a window for which the
    model finds no record. *)
Definition event_fresh `{!Environment} (st : HomeModel) (e : Event) : Prop :=
  match e with
  | window_opened window _ =>
      window_type window = WINDOW_NORMAL →
      _get_activity_by_xid (window_xid window) st = None
  | _ => True
  end.

(** Every window-open event of a trace is fresh in the state it meets. *)
Fixpoint fresh_windows `{!Environment} (st : HomeModel) (es : list Event) : Prop :=
  match es with
  | [] => True
  | e :: es' => event_fresh st e ∧ fresh_windows (step st e) es'
  end.

(** every record tracked in [st'] is tracked, unchanged, in [st] *)
Definition shrinks (st st' : HomeModel) : Prop :=
  ∀ key obj, lookup_activity st' key = Some obj →
             lookup_activity st key = Some obj.

(** ** Further definitions *)

(** ['%d' % xid] *)
Definition format_d (xid : N) : string :=
  NilZero.string_of_uint (N.to_uint xid).

(** [_SERVICE_NAME + '%d' % xid], the bus name [_add_activity] asks for *)
Definition activity_service_name (xid : N) : string :=
  _SERVICE_NAME +:+ format_d xid.

(** The [set_active(True)] call of [_notify_activity_activation(_, new)]. *)
Definition activation (st : HomeModel) (new_activity : option nat) : list Effect :=
  match (new_activity ≫= λ a : nat, heap st !! a) ≫= get_service with
  | Some service => [SetActive service true]
  | None => []
  end.

(** The service calls of [_notify_activity_activation(old, new)]. *)
Definition activation_notify (st : HomeModel) (old new_activity : option nat) : list Effect :=
  if decide (old = new_activity) then []
  else deactivation st old ++ activation st new_activity.

(** The guards [_dbus_name_owner_changed_cb] puts on a name-owner change:
    the prefix, a new owner, no old owner, and an all-digit suffix. *)
Definition accepts_name (name old new_owner : string) : bool :=
  startswith name _SERVICE_NAME && nonempty new_owner && negb (nonempty old)
  && isdigit (string_from (String.length _SERVICE_NAME) name).

(** What [int] makes of the suffix of a name: the window identifier, or
    [ValueError]. *)
Definition name_xid (name : string) : Exn + N :=
  int (string_from (String.length _SERVICE_NAME) name).

(** The exceptions a callback is written to raise or lets through: the
    [RuntimeError] of [_add_activity] and the [ValueError] of
    [notify_activity_launch], each for a type the bundle registry does not
    know, and the [ValueError] of [int] on the suffix of a name that passed
    the guards. *)
Definition expected_failure `{!Environment} (e : Event) (x : Exn) : Prop :=
  match e with
  | window_opened _ (Some service) =>
      x = RuntimeError (service_type service) ∧
      get_bundle (service_type service) = None
  | name_owner_changed name old new_owner bus =>
      (accepts_name name old new_owner = true ∧ name_xid name = inl x) ∨
      (∃ service, bus = Some service ∧
                  x = RuntimeError (service_type service) ∧
                  get_bundle (service_type service) = None)
  | launch _ service_name =>
      x = ValueError service_name ∧ get_bundle service_name = None
  | _ => False
  end.

(** The focus pointer, when set, designates a launched object. *)
Definition focused_launched (st : HomeModel) : Prop :=
  ∀ a, _current_activity st = Some a →
       ∃ obj, heap st !! a = Some obj ∧ get_launched obj = true.

(** From [st] to [st'] launched objects stay launched, and the focus
    pointer is kept, cleared, or set to a launched object. *)
Definition advances (st st' : HomeModel) : Prop :=
  (∀ a obj, heap st !! a = Some obj → get_launched obj = true →
            ∃ obj', heap st' !! a = Some obj' ∧ get_launched obj' = true) ∧
  (_current_activity st' = _current_activity st ∨
   _current_activity st' = None ∨
   ∃ a obj, _current_activity st' = Some a ∧ heap st' !! a = Some obj ∧
            get_launched obj = true).

(** The object has been announced by [activity-added] or
    [activity-launched] in the trace [t]. *)
Definition announced (t : list Effect) (a : nat) : Prop :=
  Emit (activity_added a) ∈ t ∨ Emit (activity_launched a) ∈ t.

(** Every [activity-removed] of the trace comes after an announcement of
    the same object. *)
Definition removals_announced (t : list Effect) : Prop :=
  ∀ t1 t2 a, t = t1 ++ Emit (activity_removed a) :: t2 → announced t1 a.

(** What the model keeps about its signals: tracked objects and objects
    with a connected timeout have been announced, and so has every object
    removed so far. *)
Record audited (st : HomeModel) : Prop := {
  audited_tracked key a :
    _activities st !! key = Some a → announced (trace st) a;
  audited_connected a obj :
    heap st !! a = Some obj → launch_timeout_connected obj = true →
    announced (trace st) a;
  audited_trace : removals_announced (trace st)
}.

(** a placeholder for window 42, then [act2] announced *)
Definition raw_and_launching : HomeModel :=
  @run example_env init [window_opened W1 None; launch "act2" "Chat"].

(** the placeholder of window 42 *)
Definition raw42 : Activity := @new_HomeRawWindow example_env W1 0.

(** a service of a type the bundle registry does not know *)
Definition S3 : Service := MkService "act3" "Paint".

(** ** Well-formedness is invariant *)

(** Unfolds the monadic plumbing of a callback down to store updates. *)
Ltac run_monad :=
  unfold emit in *;
  unfold bind, ret, raise, get, result, tell, set_current_activity,
    set_activities, alloc, deref, mutate, dict_setitem, dict_delitem in *;
  simpl in *.

Section Invariant.
Context `{!Environment}.

Lemma wf_init : wf init.
Proof. by split. Qed.

Lemma wf_log e st : wf st → wf (log e st).
Proof. intros [H1 H2 H3 H4]. by split. Qed.

Lemma wf_focus a st :
  wf st → (∀ x, a = Some x → x < length (heap st)) → wf (focus a st).
Proof. intros [H1 H2 H3 H4] Ha. by split. Qed.

Lemma wf_store_insert key a obj st :
  wf st → heap st !! a = Some obj → get_activity_id obj = key →
  wf (store (<[key := a]> (_activities st)) st).
Proof.
  intros [H1 H2 H3 H4] Ha Hid. split; simpl; try done.
  intros key' a'. rewrite lookup_insert. case_decide; intros; simplify_eq/=; eauto.
Qed.

Lemma wf_store_delete key st :
  wf st → wf (store (delete key (_activities st)) st).
Proof.
  intros [H1 H2 H3 H4]. split; simpl; try done.
  intros key' a'. rewrite lookup_delete. case_decide; intros; simplify_eq/=; eauto.
Qed.

Lemma wf_new mk st :
  wf st → obj_ok (length (heap st)) (mk (clock st)) → wf (allocate mk st).
Proof.
  intros [H1 H2 H3 H4] Hok. split; simpl.
  - intros key a Hk. destruct (H1 _ _ Hk) as (obj & Ho & Hid).
    exists obj. split; [|done]. by apply lookup_app_l_Some.
  - intros a Ha. rewrite length_app. specialize (H2 _ Ha). simpl. lia.
  - rewrite length_app. simpl. lia.
  - intros a obj Ha. apply lookup_app_Some in Ha as [Ha|[Hlen Ha]]; [eauto|].
    apply list_lookup_singleton_Some in Ha as [Ha <-].
    by replace a with (length (heap st)) by lia.
Qed.

Lemma wf_update a obj obj' st :
  wf st → heap st !! a = Some obj →
  get_activity_id obj' = get_activity_id obj → obj_ok a obj' →
  wf (update a obj' st).
Proof.
  intros [H1 H2 H3 H4] Ha Hid Hok. split; simpl.
  - intros key b Hk. destruct (H1 _ _ Hk) as (o & Ho & Hido).
    destruct (decide (a = b)) as [->|Hne].
    + exists obj'. rewrite list_lookup_insert_eq; [|by eapply lookup_lt_Some].
      split; [done|]. congruence.
    + exists o. by rewrite list_lookup_insert_ne.
  - intros b Hb. rewrite length_insert. eauto.
  - by rewrite length_insert.
  - intros b o Hb. destruct (decide (a = b)) as [->|Hne].
    + rewrite list_lookup_insert_eq in Hb; [|by eapply lookup_lt_Some]. congruence.
    + rewrite list_lookup_insert_ne in Hb; eauto.
Qed.


Lemma obj_ok_set_service a service obj : obj_ok a obj → obj_ok a (set_service service obj).
Proof. by intros (?&?&?). Qed.

Lemma obj_ok_set_window a window obj : obj_ok a obj → obj_ok a (set_window window obj).
Proof. intros (?&?&?). split_and!; simpl; [done|split; eauto|eauto]. Qed.

Lemma bind_wf {A B} (m : M A) (k : A → M B) st :
  wf (m st).2 →
  (∀ x st', m st = (inr x, st') → wf st' → wf (k x st').2) →
  wf (bind m k st).2.
Proof.
  unfold bind. destruct (m st) as [[e|x] st'] eqn:Hm; simpl; eauto.
Qed.

Lemma _notify_activity_activation_wf old new st :
  wf st → wf (_notify_activity_activation old new st).2.
Proof.
  intros Hwf. unfold _notify_activity_activation, service_set_active.
  run_monad.
  repeat (case_match; simplify_eq/=); eauto using wf_log.
Qed.


Lemma wf_focus_None st : wf st → wf (focus None st).
Proof. intros. by apply wf_focus. Qed.

Lemma wf_store_delete' key d st :
  wf st → d = _activities st → wf (store (delete key d) st).
Proof. intros ? ->. by apply wf_store_delete. Qed.

Ltac wf_peel :=
  repeat match goal with
  | |- wf (log _ _) => apply wf_log
  | |- wf (focus None _) => apply wf_focus_None
  | |- wf (store (delete _ _) _) => apply wf_store_delete'; [|reflexivity]
  end.

Lemma _internal_remove_activity_wf a st :
  wf st → wf (_internal_remove_activity a st).2.
Proof.
  intros Hwf. unfold _internal_remove_activity. run_monad.
  repeat (case_match; simplify_eq/=); by wf_peel.
Qed.

Lemma _remove_activity_wf xid st : wf st → wf (_remove_activity xid st).2.
Proof.
  intros Hwf. unfold _remove_activity. run_monad.
  case_match; [by apply _internal_remove_activity_wf | by apply wf_log].
Qed.

Lemma _add_window_wf window st : wf st → wf (_add_window window st).2.
Proof.
  intros Hwf. unfold _add_window. run_monad.
  apply wf_log.
  apply (wf_store_insert _ _ (new_HomeRawWindow window (clock st))
           (allocate (new_HomeRawWindow window) st)); simpl.
  - apply wf_new; [done|]. split_and!; simpl; [apply Hwf|done|eauto].
  - by rewrite lookup_app_r, Nat.sub_diag.
  - done.
Qed.

Lemma _add_activity_wf window bus st : wf st → wf (_add_activity window bus st).2.
Proof.
  intros Hwf. unfold _add_activity. destruct bus as [service|];
    [|by apply _add_window_wf].
  run_monad.
  destruct (_activities st !! service_id service) as [a|] eqn:Hkey; simpl.
  - destruct (heap st !! a) as [obj|] eqn:Ha; simpl; [|done].
    rewrite list_lookup_insert_eq by (by eapply lookup_lt_Some). simpl.
    apply wf_log.
    eapply wf_update; [ | | | apply obj_ok_set_window, obj_ok_set_service, (wf_heap _ Hwf _ _ Ha)].
    + eapply wf_update; [done|done|done|]. apply obj_ok_set_service, (wf_heap _ Hwf _ _ Ha).
    + simpl. apply list_lookup_insert_eq. by eapply lookup_lt_Some.
    + done.
  - destruct (get_bundle (service_type service)) as [bundle|]; simpl; [|done].
    rewrite lookup_app_r, Nat.sub_diag by done. simpl.
    rewrite list_lookup_insert_eq by (rewrite length_app; simpl; lia). simpl.
    set (obj := new_HomeActivity bundle (service_id service) (clock st)).
    assert (wf (allocate (new_HomeActivity bundle (service_id service)) st)) as Hwf1.
    { apply wf_new; [done|]. split_and!; simpl; [apply Hwf|naive_solver..]. }
    assert (heap (allocate (new_HomeActivity bundle (service_id service)) st)
              !! length (heap st) = Some obj) as Hobj.
    { simpl. by rewrite lookup_app_r, Nat.sub_diag. }
    pose proof (wf_store_insert _ _ _ _ Hwf1 Hobj eq_refl) as Hwf2.
    apply wf_log.
    eapply wf_update; [ | | | apply obj_ok_set_window, obj_ok_set_service, (wf_heap _ Hwf1 _ _ Hobj)].
    + eapply wf_update; [exact Hwf2|exact Hobj|done|].
      apply obj_ok_set_service, (wf_heap _ Hwf1 _ _ Hobj).
    + simpl. apply list_lookup_insert_eq. rewrite length_app; simpl; lia.
    + done.
Qed.


Lemma elem_of_values st a :
  a ∈ values st ↔ ∃ key, _activities st !! key = Some a.
Proof.
  unfold values. rewrite list_elem_of_fmap. split.
  - intros [[key b] [-> Hin]]. exists key. by apply elem_of_map_to_list.
  - intros [key Hkey]. exists (key, a). split; [done|].
    by apply elem_of_map_to_list.
Qed.

Lemma _get_activity_by_xid_Some xid st a :
  _get_activity_by_xid xid st = Some a →
  (∃ key, _activities st !! key = Some a) ∧ holds_xid st xid a = true.
Proof.
  unfold _get_activity_by_xid. intros Hfind.
  apply fmap_Some in Hfind as [[i b] [Hfind ->]].
  apply list_find_Some in Hfind as (Hi & Hb & _). split; [|done].
  apply elem_of_values. by eapply list_elem_of_lookup_2.
Qed.

Lemma _get_activity_by_xid_None xid st :
  _get_activity_by_xid xid st = None ↔
  ∀ key a, _activities st !! key = Some a → holds_xid st xid a = false.
Proof.
  unfold _get_activity_by_xid. rewrite fmap_None, list_find_None, Forall_forall.
  split.
  - intros Hall key a Hkey. apply not_true_is_false, Hall, elem_of_values. eauto.
  - intros Hall a [key Hkey]%elem_of_values. by rewrite (Hall _ _ Hkey).
Qed.

Lemma holds_xid_lt st xid a : holds_xid st xid a = true → a < length (heap st).
Proof.
  unfold holds_xid. destruct (heap st !! a) eqn:Ha; [|done].
  intros _. by eapply lookup_lt_Some.
Qed.

Lemma _notify_activity_activation_frame old new st :
  let st' := (_notify_activity_activation old new st).2 in
  heap st' = heap st ∧ clock st' = clock st ∧
  _activities st' = _activities st ∧
  _current_activity st' = _current_activity st.
Proof.
  unfold _notify_activity_activation, service_set_active. run_monad.
  by repeat (case_match; simplify_eq/=).
Qed.

Lemma _active_window_changed_cb_wf active st :
  wf st → wf (_active_window_changed_cb active st).2.
Proof.
  intros Hwf. unfold _active_window_changed_cb.
  destruct active as [window|].
  - case_decide; [done|].
    apply bind_wf; [done|]. intros ? ? [= <- <-] _.
    apply bind_wf.
    + destruct (_get_activity_by_xid _ st) as [act|] eqn:Hact.
      * apply _get_activity_by_xid_Some in Hact as [_ Hact%holds_xid_lt].
        apply bind_wf; [unfold deref; by case_match|].
        intros obj st' Hderef _.
        assert (st' = st) as -> by (unfold deref in Hderef; by case_match; simplify_eq).
        destruct (get_launched obj).
        -- apply bind_wf; [by apply _notify_activity_activation_wf|].
           intros [] st' Hst' Hwf'. simpl. apply wf_focus; [done|].
           intros x Hx. assert (x = act) as -> by congruence. clear Hx.
           pose proof (_notify_activity_activation_frame
                         (_current_activity st) (Some act) st) as (Hheap & _).
           rewrite Hst' in Hheap. simpl in Hheap. by rewrite Hheap.
        -- apply bind_wf; [by apply _notify_activity_activation_wf|].
           intros _ st' _ Hwf'. run_monad. by wf_peel.
      * apply bind_wf; [by apply _notify_activity_activation_wf|].
        intros _ st' _ Hwf'. run_monad. by wf_peel.
    + intros _ st' _ Hwf'. run_monad. by wf_peel.
  - apply bind_wf; [by apply wf_log|]. intros _ st' _ Hwf'.
    apply bind_wf; [done|]. intros ? ? [= <- <-] _.
    by apply _notify_activity_activation_wf.
Qed.

Lemma _window_opened_cb_wf window bus st :
  wf st → wf (_window_opened_cb window bus st).2.
Proof.
  intros Hwf. unfold _window_opened_cb.
  case_decide; [by apply _add_activity_wf|done].
Qed.

Lemma _window_closed_cb_wf window st :
  wf st → wf (_window_closed_cb window st).2.
Proof.
  intros Hwf. unfold _window_closed_cb. apply bind_wf.
  - case_decide; [by apply _remove_activity_wf|done].
  - intros _ st' _ Hwf'. apply bind_wf; [done|]. intros ? ? [= <- <-] _.
    case_decide; [|done].
    apply bind_wf; [by apply wf_log|]. intros _ st'' _ Hwf''.
    by apply _notify_activity_activation_wf.
Qed.

Lemma _dbus_name_owner_changed_cb_wf name old new bus st :
  wf st → wf (_dbus_name_owner_changed_cb name old new bus st).2.
Proof.
  intros Hwf. unfold _dbus_name_owner_changed_cb.
  case_match; [|done]. case_match; [done|].
  apply bind_wf; [by apply wf_log|]. intros _ st1 _ Hwf1.
  apply bind_wf; [done|]. intros xid ? _ Hwf1'.
  apply bind_wf; [done|]. intros ? ? [= <- <-] _.
  case_match; [|done].
  apply bind_wf; [unfold deref; by case_match|]. intros obj st2 Hderef Hwf2.
  case_match; [|done].
  apply bind_wf; [by apply wf_log|]. intros _ st3 _ Hwf3.
  apply bind_wf; [by apply _internal_remove_activity_wf|]. intros _ st4 _ Hwf4.
  case_match; [by apply _add_activity_wf|done].
Qed.

Lemma _activity_launch_timeout_cb_wf activity st :
  wf st → wf (_activity_launch_timeout_cb activity st).2.
Proof.
  intros Hwf. unfold _activity_launch_timeout_cb.
  apply bind_wf; [unfold deref; by case_match|]. intros obj st1 _ Hwf1.
  apply bind_wf; [done|]. intros ? ? [= <- <-] _.
  case_decide; [by apply _internal_remove_activity_wf|done].
Qed.

Lemma notify_activity_launch_wf activity_id service_name st :
  wf st → wf (notify_activity_launch activity_id service_name st).2.
Proof.
  intros Hwf. unfold notify_activity_launch.
  destruct (get_bundle service_name) as [bundle|]; [|done].
  run_monad. apply wf_log.
  set (mk := λ now, connect_launch_timeout (new_HomeActivity bundle activity_id now)).
  apply (wf_store_insert _ _ (mk (clock st)) (allocate mk st)); simpl.
  - apply wf_new; [done|]. split_and!; simpl; [apply Hwf|naive_solver..].
  - by rewrite lookup_app_r, Nat.sub_diag.
  - done.
Qed.

Lemma notify_activity_launch_failed_wf activity_id st :
  wf st → wf (notify_activity_launch_failed activity_id st).2.
Proof.
  intros Hwf. unfold notify_activity_launch_failed.
  apply bind_wf; [done|]. intros ? ? [= <- <-] _.
  case_match; [|by apply wf_log].
  apply bind_wf; [by apply wf_log|]. intros _ st1 _ Hwf1.
  by apply _internal_remove_activity_wf.
Qed.

Lemma step_wf st e : wf st → wf (step st e).
Proof.
  intros Hwf. unfold step. destruct e; simpl.
  - by apply _window_opened_cb_wf.
  - by apply _window_closed_cb_wf.
  - by apply _active_window_changed_cb_wf.
  - by apply _dbus_name_owner_changed_cb_wf.
  - unfold _launch_timeout_signal. repeat case_match; try done.
    by apply _activity_launch_timeout_cb_wf.
  - by apply notify_activity_launch_wf.
  - by apply notify_activity_launch_failed_wf.
Qed.

Lemma run_wf es st : wf st → wf (run st es).
Proof.
  revert st. induction es as [|e es IH]; intros st Hwf; [done|].
  simpl. by apply IH, step_wf.
Qed.

Lemma reachable_wf st : reachable st → wf st.
Proof. induction 1; [apply wf_init | by apply step_wf]. Qed.

Lemma reachable_run st es : reachable st → reachable (run st es).
Proof.
  revert st. induction es as [|e es IH]; intros st Hst; [done|].
  simpl. apply IH. by constructor.
Qed.

End Invariant.

(** ** Equations of the callbacks *)

Section Equations.
Context `{!Environment}.

Lemma trace_logs es st : trace (logs es st) = trace st ++ es.
Proof.
  revert st. induction es as [|e es IH]; intros st; simpl.
  - by rewrite app_nil_r.
  - rewrite IH. simpl. by rewrite <-app_assoc.
Qed.

Lemma logs_frame es st :
  heap (logs es st) = heap st ∧ clock (logs es st) = clock st ∧
  _activities (logs es st) = _activities st ∧
  _current_activity (logs es st) = _current_activity st.
Proof.
  revert st. induction es as [|e es IH]; intros st; simpl; [done|].
  by destruct (IH (log e st)) as (-> & -> & -> & ->).
Qed.

Lemma _notify_activity_activation_None old st :
  (∀ a, old = Some a → a < length (heap st)) →
  _notify_activity_activation old None st =
    (inr (), logs (deactivation st old) st).
Proof.
  intros Hold. unfold _notify_activity_activation, service_set_active, deactivation.
  destruct old as [a|]; simpl; [|done].
  destruct (lookup_lt_is_Some_2 (heap st) a (Hold _ eq_refl)) as [obj Hobj].
  run_monad. rewrite Hobj. simpl. by destruct (get_service obj).
Qed.

Lemma _internal_remove_activity_eq a obj st :
  heap st !! a = Some obj →
  is_Some (_activities st !! get_activity_id obj) →
  _internal_remove_activity a st =
    (inr (),
     store (delete (get_activity_id obj) (_activities st))
       (log (Emit (activity_removed a))
          (focus (if decide (Some a = _current_activity st)
                  then None else _current_activity st) st))).
Proof.
  intros Hobj [b Hb]. unfold _internal_remove_activity. run_monad.
  case_decide; simpl; rewrite Hobj; simpl; by rewrite Hb.
Qed.


Lemma _add_window_eq window st :
  _add_window window st = (inr (), added_window window st).
Proof. done. Qed.

Lemma _add_activity_existing window service a obj st :
  _activities st !! service_id service = Some a →
  heap st !! a = Some obj →
  _add_activity window (Some service) st =
    (inr (), bound_existing window service a obj st).
Proof.
  intros Hkey Hobj. unfold _add_activity, bound_existing. run_monad.
  rewrite Hkey. simpl. rewrite Hobj. simpl.
  rewrite list_lookup_insert_eq by (by eapply lookup_lt_Some). simpl.
  unfold update, log. simpl. by rewrite list_insert_insert_eq.
Qed.

Lemma _add_activity_recovered window service bundle st :
  _activities st !! service_id service = None →
  get_bundle (service_type service) = Some bundle →
  _add_activity window (Some service) st =
    (inr (), bound_recovered window service bundle st).
Proof.
  intros Hkey Hbundle. unfold _add_activity, bound_recovered. run_monad.
  rewrite Hkey. simpl. rewrite Hbundle. simpl.
  rewrite lookup_app_r, Nat.sub_diag by done. simpl.
  rewrite list_lookup_insert_eq by (rewrite length_app; simpl; lia). simpl.
  unfold update, log, store, allocate. simpl. do 2 f_equal.
  rewrite list_insert_insert_eq.
  replace (length (heap st)) with (length (heap st) + 0) at 1 by lia.
  by rewrite insert_app_r.
Qed.

Lemma _add_activity_missing_bundle window service st :
  _activities st !! service_id service = None →
  get_bundle (service_type service) = None →
  _add_activity window (Some service) st =
    (inl (RuntimeError (service_type service)), st).
Proof.
  intros Hkey Hbundle. unfold _add_activity. run_monad.
  rewrite Hkey. simpl. by rewrite Hbundle.
Qed.


(** C6.  [notify_activity_launch] raises (the [ValueError] the spec calls
    [UnknownServiceTypeError]) exactly when the bundle registry has nothing
    for the service name.  When it raises the model is left as it was: no
    record, no signal.  When it succeeds, one new object, a windowless
    [HomeActivity] with [launched = false], is stored under the activity
    id, and the trace grows by exactly one [activity-launched] signal. *)
Theorem notify_activity_launch_outcome st activity_id service_name :
  let r := notify_activity_launch activity_id service_name st in
  ((∃ e, r.1 = inl e) ↔ get_bundle service_name = None) ∧
  (get_bundle service_name = None →
     r = (inl (ValueError service_name), st)) ∧
  (∀ bundle, get_bundle service_name = Some bundle →
     let a := length (heap st) in
     r.1 = inr () ∧
     _activities r.2 = <[activity_id := a]> (_activities st) ∧
     (∃ obj, heap r.2 = heap st ++ [obj] ∧
             class_of obj = HomeActivity ∧
             get_activity_id obj = activity_id ∧
             get_window obj = None ∧ get_launched obj = false) ∧
     _current_activity r.2 = _current_activity st ∧
     trace r.2 = trace st ++ [Emit (activity_launched a)]).
Proof.
  unfold notify_activity_launch.
  destruct (get_bundle service_name) as [bundle|] eqn:Hbundle; simpl.
  - split_and!.
    + split; [intros [e [=]]|done].
    + done.
    + intros ? [= <-]. split_and!; try done. eauto 10.
  - split_and!; [split; eauto|done|done].
Qed.

(** C10.  A launch notification for an id that is already registered
    replaces the registered object silently: the id designates a new
    windowless object, every other id is untouched, the number of records is
    unchanged, the displaced object itself is not modified, and the only
    effect is one [activity-launched] signal for the new object (in
    particular no [activity-removed]). *)
Theorem notify_activity_launch_replaces st activity_id service_name old bundle :
  reachable st →
  _activities st !! activity_id = Some old →
  get_bundle service_name = Some bundle →
  let st' := step st (launch activity_id service_name) in
  ∃ a obj,
    a ≠ old ∧
    _activities st' !! activity_id = Some a ∧
    (∀ key, key ≠ activity_id → _activities st' !! key = _activities st !! key) ∧
    size (_activities st') = size (_activities st) ∧
    heap st' !! a = Some obj ∧
    get_window obj = None ∧ get_launched obj = false ∧
    heap st' !! old = heap st !! old ∧
    trace st' = trace st ++ [Emit (activity_launched a)].
Proof.
  intros Hst%reachable_wf Hold Hbundle. unfold step. simpl.
  unfold notify_activity_launch. rewrite Hbundle. simpl.
  destruct (wf_tracked _ Hst _ _ Hold) as (oldobj & Holdobj & _).
  pose proof (lookup_lt_Some _ _ _ Holdobj) as Hlt.
  eexists (length (heap st)), _. split_and!.
  - lia.
  - by rewrite lookup_insert_eq.
  - intros key Hne. by rewrite lookup_insert_ne.
  - by apply map_size_insert_Some.
  - simpl. by rewrite lookup_app_r, Nat.sub_diag.
  - done.
  - done.
  - simpl. by rewrite lookup_app_l.
  - done.
Qed.

(** C7.  A normal window opens and its service reports an id that is not
    registered (a recovered activity).  The callback raises (the
    [RuntimeError] the spec calls [MissingBundleError]) exactly when the
    bundle registry has nothing for the service's type; the model is then
    left as it was, so that any later events behave as if the failed one
    had not been delivered.  Otherwise a new [HomeActivity] carrying the
    window and the service is stored under the id and one [activity-added]
    signal is emitted. *)
Theorem window_opened_recovered st window service :
  window_type window = WINDOW_NORMAL →
  _activities st !! service_id service = None →
  let r := _window_opened_cb window (Some service) st in
  ((∃ e, r.1 = inl e) ↔ get_bundle (service_type service) = None) ∧
  (get_bundle (service_type service) = None →
     r = (inl (RuntimeError (service_type service)), st) ∧
     ∀ es, run (step st (window_opened window (Some service))) es = run st es) ∧
  (∀ bundle, get_bundle (service_type service) = Some bundle →
     let a := length (heap st) in
     r.1 = inr () ∧
     _activities r.2 = <[service_id service := a]> (_activities st) ∧
     (∃ obj, heap r.2 = heap st ++ [obj] ∧
             class_of obj = HomeActivity ∧
             get_activity_id obj = service_id service ∧
             get_window obj = Some window ∧
             get_service obj = Some service ∧
             get_launched obj = true) ∧
     _current_activity r.2 = _current_activity st ∧
     trace r.2 = trace st ++ [Emit (activity_added a)]).
Proof.
  intros Hnormal Hkey. unfold step. simpl. unfold _window_opened_cb.
  rewrite decide_True by done.
  destruct (get_bundle (service_type service)) as [bundle|] eqn:Hbundle.
  - rewrite (_add_activity_recovered _ _ bundle) by done. split_and!.
    + split; [intros [e [=]]|done].
    + done.
    + intros ? [= <-]. simpl. split_and!; try done. eauto 10.
  - rewrite _add_activity_missing_bundle by done. split_and!.
    + split; eauto.
    + done.
    + done.
Qed.

Lemma _activity_launch_timeout_cb_eq activity obj st :
  heap st !! activity = Some obj →
  _activity_launch_timeout_cb activity st =
    if decide (is_Some (_activities st !! get_activity_id obj))
    then _internal_remove_activity activity st else (inr (), st).
Proof.
  intros Hobj. unfold _activity_launch_timeout_cb. run_monad.
  rewrite Hobj. simpl. by case_decide.
Qed.

(** C1, as amended.  The expiry callback looks only at whether the
    activity id of its object is registered.  It is a no-op when the id is
    not registered; when it is registered, bound to a window and service or
    not, the callback removes the entry, clears the focus pointer if it
    designates the object, and emits [activity-removed]. *)
Theorem launch_timeout_removes_registered st activity obj :
  heap st !! activity = Some obj →
  let r := _activity_launch_timeout_cb activity st in
  (_activities st !! get_activity_id obj = None → r = (inr (), st)) ∧
  (is_Some (_activities st !! get_activity_id obj) →
     r.1 = inr () ∧
     _activities r.2 = delete (get_activity_id obj) (_activities st) ∧
     _current_activity r.2 =
       (if decide (Some activity = _current_activity st)
        then None else _current_activity st) ∧
     trace r.2 = trace st ++ [Emit (activity_removed activity)]).
Proof.
  intros Hobj r. subst r. rewrite (_activity_launch_timeout_cb_eq _ obj) by done.
  split; intros Hkey.
  - case_decide as Hd; [|done]. destruct Hd as [? Hd]. congruence.
  - case_decide; [|done]. by rewrite (_internal_remove_activity_eq _ obj).
Qed.


Lemma wf_current_lt st : wf st → ∀ a, _current_activity st = Some a → a < length (heap st).
Proof. intros Hwf. apply Hwf. Qed.

(** C9.  The active window changes to a normal window for which the lookup
    finds no record, or one that is not launched.  The callback does not
    raise, leaves store and registry alone, clears the focus pointer, and
    its effects are, in order: the [set_active(False)] of activation-notify
    from the previously focused object to none, one error log record, and
    exactly one [active-activity-changed(None)]. *)
Theorem active_window_changed_unresolved st window :
  reachable st →
  window_type window = WINDOW_NORMAL →
  (_get_activity_by_xid (window_xid window) st = None ∨
   ∃ a obj, _get_activity_by_xid (window_xid window) st = Some a ∧
            heap st !! a = Some obj ∧ get_launched obj = false) →
  let r := _active_window_changed_cb (Some window) st in
  r.1 = inr () ∧
  _current_activity r.2 = None ∧
  heap r.2 = heap st ∧ _activities r.2 = _activities st ∧
  ∃ record,
    trace r.2 = trace st ++ deactivation st (_current_activity st)
                  ++ [LogError record; Emit (active_activity_changed None)].
Proof.
  intros Hst%reachable_wf Hnormal Hcase r. subst r.
  unfold _active_window_changed_cb. rewrite decide_False by naive_solver.
  pose proof (_notify_activity_activation_None _ _ (wf_current_lt _ Hst)) as Hnotify.
  pose proof (logs_frame (deactivation st (_current_activity st)) st)
    as (Hheap & _ & Hacts & _).
  destruct Hcase as [Hnone|(a & obj & Hsome & Hobj & Hlaunched)].
  - run_monad. rewrite Hnone. simpl. rewrite Hnotify. simpl.
    rewrite trace_logs, Hheap, Hacts. split_and!; try done.
    eexists. by rewrite <-!app_assoc.
  - run_monad. rewrite Hsome. simpl. rewrite Hobj. simpl.
    rewrite Hlaunched. simpl. rewrite Hnotify. simpl.
    rewrite trace_logs, Hheap, Hacts. split_and!; try done.
    eexists. by rewrite <-!app_assoc.
Qed.

(** C4, as amended.  Closing a window that is not of normal type leaves
    store, registry and focus pointer as they were and emits no
    [activity-removed].  Nothing at all is emitted while the registry is non
    empty; on an empty registry the callback still emits
    [active-activity-changed(None)] and runs activation-notify from the
    focus pointer to none. *)
Theorem window_closed_not_normal st window :
  reachable st →
  window_type window ≠ WINDOW_NORMAL →
  let r := _window_closed_cb window st in
  r.1 = inr () ∧
  heap r.2 = heap st ∧ _activities r.2 = _activities st ∧
  _current_activity r.2 = _current_activity st ∧
  (∀ a, Emit (activity_removed a) ∉ drop (length (trace st)) (trace r.2)) ∧
  (_activities st ≠ ∅ → trace r.2 = trace st) ∧
  (_activities st = ∅ →
     trace r.2 = trace st ++ [Emit (active_activity_changed None)]
                   ++ deactivation st (_current_activity st)).
Proof.
  intros Hst%reachable_wf Hnormal r. subst r.
  unfold _window_closed_cb. rewrite decide_False by done.
  pose proof (_notify_activity_activation_None (_current_activity st)
                (log (Emit (active_activity_changed None)) st)
                (wf_current_lt _ Hst)) as Hnotify.
  change (deactivation (log _ st) ?c) with (deactivation st c) in Hnotify.
  pose proof (logs_frame (deactivation st (_current_activity st))
                (log (Emit (active_activity_changed None)) st))
    as (Hheap & _ & Hacts & Hcur).
  run_monad. case_decide as Hempty; simpl.
  - rewrite Hnotify. simpl. rewrite trace_logs, Hheap, Hacts, Hcur. simpl.
    split_and!; try done.
    + intros a. rewrite <-app_assoc, drop_app_length.
      unfold deactivation. destruct (_ ≫= get_service); simpl; intros Hin;
        repeat (apply elem_of_cons in Hin as [?|Hin]; [done|]);
        by apply elem_of_nil in Hin.
    + by rewrite <-app_assoc.
  - split_and!; try done. intros a. rewrite drop_all. apply not_elem_of_nil.
Qed.


Lemma _get_activity_by_xid_tracked xid st a :
  wf st → _get_activity_by_xid xid st = Some a →
  ∃ obj, heap st !! a = Some obj ∧
         _activities st !! get_activity_id obj = Some a ∧
         get_launched obj = true ∧ get_xid obj = Some xid.
Proof.
  intros Hwf Hfind.
  apply _get_activity_by_xid_Some in Hfind as [[key Hkey] Hholds].
  destruct (wf_tracked _ Hwf _ _ Hkey) as (obj & Hobj & Hid). subst key.
  exists obj. unfold holds_xid in Hholds. rewrite Hobj in Hholds.
  apply andb_true_iff in Hholds as [Hl Hx].
  by apply bool_decide_eq_true in Hx.
Qed.

Lemma _remove_activity_found xid a st :
  _get_activity_by_xid xid st = Some a →
  _remove_activity xid st = _internal_remove_activity a st.
Proof. intros Hfind. unfold _remove_activity. run_monad. by rewrite Hfind. Qed.

(** the rest of [_window_closed_cb] once the window has been dealt with *)
Lemma _window_closed_cb_tail window st st1 :
  (if decide (window_type window = WINDOW_NORMAL)
   then _remove_activity (window_xid window) else ret ()) st = (inr (), st1) →
  wf st1 →
  _window_closed_cb window st =
    (inr (),
     if decide (_activities st1 = ∅)
     then logs (deactivation st1 (_current_activity st1))
            (log (Emit (active_activity_changed None)) st1)
     else st1).
Proof.
  intros Hhead Hwf. unfold _window_closed_cb. unfold bind at 1. rewrite Hhead.
  unfold bind at 1, get.
  destruct (decide (_activities st1 = ∅)); [|reflexivity].
  unfold bind at 1, emit, tell.
  by rewrite _notify_activity_activation_None by (apply (wf_current_lt _ Hwf)).
Qed.

(** C3, as amended.  A normal window closes, a record is found for it,
    and its removal leaves the registry empty.  The callback emits
    [activity-removed], then [active-activity-changed(None)], then runs
    activation-notify to none from the focus pointer as the removal left it:
    the pointer is already cleared when the removed record was the focused
    one, and then no [set_active] call is made at all. *)
Theorem window_closed_last_record st window a :
  reachable st →
  window_type window = WINDOW_NORMAL →
  _get_activity_by_xid (window_xid window) st = Some a →
  let r := _window_closed_cb window st in
  let focused := if decide (_current_activity st = Some a)
                 then None else _current_activity st in
  _activities r.2 = ∅ →
  r.1 = inr () ∧
  _current_activity r.2 = focused ∧
  trace r.2 = trace st ++ [Emit (activity_removed a);
                           Emit (active_activity_changed None)]
                ++ deactivation st focused ∧
  (_current_activity st = Some a →
     trace r.2 = trace st ++ [Emit (activity_removed a);
                              Emit (active_activity_changed None)]).
Proof.
  intros Hst%reachable_wf Hnormal Hfind r focused. subst r.
  destruct (_get_activity_by_xid_tracked _ _ _ Hst Hfind)
    as (obj & Hobj & Hkey & _).
  pose proof (_internal_remove_activity_wf a st Hst) as Hwf1.
  pose proof (_internal_remove_activity_eq a obj st Hobj) as Heq.
  rewrite Hkey in Heq. specialize (Heq (mk_is_Some _ _ eq_refl)).
  rewrite Heq in Hwf1. simpl in Hwf1.
  assert ((if decide (Some a = _current_activity st)
           then None else _current_activity st) = focused) as Hfocused.
  { unfold focused. repeat case_decide; congruence. }
  rewrite Hfocused in Heq, Hwf1.
  erewrite _window_closed_cb_tail; [| |exact Hwf1].
  2:{ rewrite decide_True by done.
      by rewrite (_remove_activity_found _ a). }
  simpl. intros Hempty. rewrite decide_True in Hempty |- * by (by case_decide).
  match goal with |- context [logs ?es ?s] =>
    pose proof (logs_frame es s) as (_ & _ & _ & Hcur);
    rewrite trace_logs, Hcur end.
  simpl. unfold deactivation at 1 2. simpl. fold (deactivation st focused).
  split_and!; [done|done|by rewrite <-!app_assoc|].
  intros Hfocus. unfold focused, deactivation. rewrite decide_True by done.
  simpl. by rewrite <-!app_assoc.
Qed.

End Equations.

(** ** Sorting by key *)

Section Sorting.
Context {A : Type} (key : A → nat).

Lemma insert_by_Permutation x l : insert_by key x l ≡ₚ x :: l.
Proof.
  induction l as [|y l IH]; simpl; [done|].
  case_decide; [done|]. rewrite IH. apply Permutation_swap.
Qed.

Lemma sort_by_Permutation l : sort_by key l ≡ₚ l.
Proof.
  induction l as [|x l IH]; simpl; [done|].
  by rewrite insert_by_Permutation, IH.
Qed.

Lemma insert_by_sorted x l :
  StronglySorted (λ a b, key a ≤ key b) l →
  StronglySorted (λ a b, key a ≤ key b) (insert_by key x l).
Proof.
  induction 1 as [|y l Hl IH Hy]; simpl.
  - repeat constructor.
  - case_decide as Hxy.
    + constructor; [by constructor|].
      constructor; [done|]. eapply Forall_impl; [exact Hy|].
      simpl. intros. lia.
    + constructor; [done|].
      rewrite insert_by_Permutation. constructor; [lia|done].
Qed.

Lemma sort_by_sorted l :
  StronglySorted (λ a b, key a ≤ key b) (sort_by key l).
Proof.
  induction l as [|x l IH]; simpl; [constructor|by apply insert_by_sorted].
Qed.

(** With pairwise distinct keys the order is strict. *)
Lemma sorted_strict l :
  NoDup l →
  (∀ x y, x ∈ l → y ∈ l → key x = key y → x = y) →
  StronglySorted (λ a b, key a ≤ key b) l →
  StronglySorted (λ a b, key a < key b) l.
Proof.
  intros Hnodup Hinj Hsorted.
  induction Hsorted as [|x l Hl IH Hx]; [constructor|].
  apply NoDup_cons in Hnodup as [Hnotin Hnodup].
  constructor.
  - apply IH; [done|]. intros y z Hy Hz. apply Hinj; by right.
  - rewrite Forall_forall in Hx |- *. intros y Hy.
    specialize (Hx y Hy).
    destruct (decide (key x = key y)) as [Heq|Hne]; [|lia].
    apply Hinj in Heq; [|by left|by right]. by subst.
Qed.

Lemma filter_sorted (R : relation A) (P : A → Prop) `{∀ x, Decision (P x)} l :
  StronglySorted R l → StronglySorted R (filter P l).
Proof.
  induction 1 as [|x l Hl IH Hx]; [constructor|].
  rewrite filter_cons. case_decide; [|done].
  constructor; [done|]. rewrite Forall_forall in Hx |- *.
  intros y Hy. apply list_elem_of_filter in Hy as [_ Hy]. by apply Hx.
Qed.

Lemma filter_all (P : A → Prop) `{∀ x, Decision (P x)} l :
  Forall P l → filter P l = l.
Proof.
  induction 1 as [|x l Hx Hl IH]; [done|].
  by rewrite filter_cons_True, IH.
Qed.
End Sorting.

(** ** The ordered views *)

Section Views.
Context `{!Environment}.

Lemma NoDup_values st : wf st → NoDup (values st).
Proof.
  intros Hwf. unfold values. apply NoDup_fmap_2_strong; [|apply NoDup_map_to_list].
  intros [k1 a1] [k2 a2] H1%elem_of_map_to_list H2%elem_of_map_to_list Heq.
  simpl in Heq. subst a2.
  destruct (wf_tracked _ Hwf _ _ H1) as (obj1 & Hobj1 & Hid1).
  destruct (wf_tracked _ Hwf _ _ H2) as (obj2 & Hobj2 & Hid2).
  congruence.
Qed.

Lemma launch_time_of_tracked st a :
  wf st → a ∈ values st → launch_time_of st a = a.
Proof.
  intros Hwf [key Hkey]%elem_of_values.
  destruct (wf_tracked _ Hwf _ _ Hkey) as (obj & Hobj & _).
  unfold launch_time_of. rewrite Hobj. simpl. apply (wf_heap _ Hwf _ _ Hobj).
Qed.

Lemma _get_ordered_activities_sorted st :
  wf st →
  StronglySorted (λ a b, launch_time_of st a < launch_time_of st b)
    (_get_ordered_activities st).
Proof.
  intros Hwf. unfold _get_ordered_activities.
  apply sorted_strict; [| |apply sort_by_sorted].
  - rewrite sort_by_Permutation. by apply NoDup_values.
  - intros a b. rewrite !sort_by_Permutation. intros Ha Hb.
    by rewrite !launch_time_of_tracked.
Qed.

Lemma values_delete st key a :
  wf st → _activities st !! key = Some a →
  (map_to_list (delete key (_activities st))).*2
    ≡ₚ filter (λ b, b ≠ a) (_get_ordered_activities st).
Proof.
  intros Hwf Hkey.
  pose proof (NoDup_values _ Hwf) as Hnodup.
  assert (values st ≡ₚ a :: (map_to_list (delete key (_activities st))).*2) as Hperm.
  { unfold values. by rewrite <-(map_to_list_delete _ _ _ Hkey). }
  rewrite Hperm in Hnodup. apply NoDup_cons in Hnodup as [Hnotin _].
  unfold _get_ordered_activities. rewrite sort_by_Permutation, Hperm.
  rewrite filter_cons, decide_False by naive_solver.
  rewrite filter_all; [done|].
  apply Forall_forall. intros b Hb ->. done.
Qed.


(** C5.  In every reachable state the ordered traversal is the tracked
    objects sorted by strictly ascending launch time; its length is the
    count of records; positional indexing, from the front and from the end,
    and [index] agree with it; and removing one tracked object leaves the
    others in the order they had. *)
Theorem ordered_views st :
  reachable st →
  let ordered := __iter__ st in
  ordered ≡ₚ values st ∧
  StronglySorted (λ a b, launch_time_of st a < launch_time_of st b) ordered ∧
  length ordered = __len__ st ∧
  (∀ i a, ordered !! i = Some a →
     __getitem__ st (Z.of_nat i) = inr a ∧
     __getitem__ st (Z.of_nat i - Z.of_nat (length ordered)) = inr a ∧
     index st a = inr i) ∧
  (∀ a obj,
     heap st !! a = Some obj →
     _activities st !! get_activity_id obj = Some a →
     __iter__ (_internal_remove_activity a st).2 = filter (λ b, b ≠ a) ordered).
Proof.
  intros Hst%reachable_wf ordered.
  pose proof (_get_ordered_activities_sorted _ Hst) as Hsorted.
  assert (ordered ≡ₚ values st) as Hperm by apply sort_by_Permutation.
  assert (NoDup ordered) as Hnodup by (rewrite Hperm; by apply NoDup_values).
  split_and!; [done|done| | |].
  - unfold __len__. rewrite Hperm. unfold values.
    by rewrite length_fmap, length_map_to_list.
  - intros i a Hi. pose proof (lookup_lt_Some _ _ _ Hi) as Hlt. split_and!.
    + unfold __getitem__. cbv zeta. fold (__iter__ st). fold ordered.
      rewrite (decide_False (P := (Z.of_nat i < 0)%Z)) by lia.
      rewrite decide_True by lia.
      by rewrite Nat2Z.id, Hi.
    + unfold __getitem__. cbv zeta. fold (__iter__ st). fold ordered.
      rewrite (decide_True (P := (_ < 0)%Z)) by lia.
      rewrite decide_True by lia.
      replace (Z.to_nat _) with i by lia. by rewrite Hi.
    + unfold index. fold (__iter__ st). fold ordered.
      assert (list_find (λ b, b = a) ordered = Some (i, a)) as ->; [|done].
      apply list_find_Some. split_and!; [done|done|].
      intros j b Hj Hji ->. pose proof (NoDup_lookup _ _ _ _ Hnodup Hi Hj). lia.
  - intros a obj Hobj Hkey.
    rewrite (_internal_remove_activity_eq _ obj) by (by rewrite ?Hkey).
    simpl.
    change (__iter__ (store ?d ?s)) with
      (sort_by (launch_time_of st) (map_to_list d).*2).
    apply (StronglySorted_unique_strong
             (λ a b, launch_time_of st a < launch_time_of st b)).
    + intros; lia.
    + apply sorted_strict; [| |apply sort_by_sorted].
      * rewrite sort_by_Permutation.
        rewrite (values_delete _ _ _ Hst Hkey). by apply NoDup_filter.
      * intros b c. rewrite !sort_by_Permutation.
        rewrite !(values_delete _ _ _ Hst Hkey).
        intros [_ Hb]%list_elem_of_filter [_ Hc]%list_elem_of_filter.
        fold (__iter__ st) in Hb, Hc. fold ordered in Hb, Hc.
        rewrite Hperm in Hb, Hc.
        by rewrite !launch_time_of_tracked.
    + by apply filter_sorted.
    + rewrite sort_by_Permutation. by apply values_delete.
Qed.

End Views.

(** ** The window and service race *)

Section Race.
Context `{!Environment}.

Lemma _get_activity_by_xid_unique xid st key a :
  _activities st !! key = Some a →
  holds_xid st xid a = true →
  (∀ key' a', _activities st !! key' = Some a' →
              holds_xid st xid a' = true → a' = a) →
  _get_activity_by_xid xid st = Some a.
Proof.
  intros Hkey Hholds Huniq.
  destruct (_get_activity_by_xid xid st) as [b|] eqn:Hfind.
  - apply _get_activity_by_xid_Some in Hfind as [[key' Hkey'] Hb].
    f_equal. eauto.
  - rewrite _get_activity_by_xid_None in Hfind.
    rewrite (Hfind _ _ Hkey) in Hholds. done.
Qed.




Lemma holds_xid_prefix st st' xid a :
  a < length (heap st) → (∃ l, heap st' = heap st ++ l) →
  holds_xid st' xid a = holds_xid st xid a.
Proof.
  intros Hlt [l Hl]. unfold holds_xid. by rewrite Hl, lookup_app_l.
Qed.






End Race.

(** ** Uniqueness of ids and windows *)

Section Uniqueness.
Context `{!Environment}.

Lemma lookup_activity_Some st key obj :
  wf st → lookup_activity st key = Some obj →
  ∃ a, _activities st !! key = Some a ∧ heap st !! a = Some obj ∧
       get_activity_id obj = key.
Proof.
  intros Hwf Hlook. unfold lookup_activity in Hlook.
  destruct (_activities st !! key) as [a|] eqn:Hkey; [|done].
  simpl in Hlook. destruct (wf_tracked _ Hwf _ _ Hkey) as (obj' & Hobj' & Hid).
  exists a. split_and!; congruence.
Qed.

Lemma reachable_unique_ids st : wf st → unique_ids st.
Proof.
  intros Hwf key1 key2 obj1 obj2 H1 H2 Hid.
  apply lookup_activity_Some in H1 as (_ & _ & _ & <-); [|done].
  apply lookup_activity_Some in H2 as (_ & _ & _ & <-); [|done].
  done.
Qed.

Lemma shrinks_refl st : shrinks st st.
Proof. by intros key obj. Qed.

Lemma shrinks_trans st1 st2 st3 : shrinks st1 st2 → shrinks st2 st3 → shrinks st1 st3.
Proof. intros H12 H23 key obj Hlook. eauto. Qed.

Lemma shrinks_same st st' :
  heap st' = heap st → _activities st' = _activities st → shrinks st st'.
Proof. intros Hheap Hacts key obj. unfold lookup_activity. by rewrite Hheap, Hacts. Qed.

Lemma shrinks_delete st st' key :
  heap st' = heap st → _activities st' = delete key (_activities st) →
  shrinks st st'.
Proof.
  intros Hheap Hacts key' obj. unfold lookup_activity. rewrite Hheap, Hacts.
  rewrite lookup_delete. by case_decide.
Qed.

Lemma unique_windows_shrinks st st' :
  shrinks st st' → unique_windows st → unique_windows st'.
Proof. intros Hshrinks Huniq key1 key2 obj1 obj2 xid H1 H2. eauto. Qed.

Lemma window_tracked_shrinks st st' xid :
  shrinks st st' → window_tracked st' xid → window_tracked st xid.
Proof. intros Hshrinks (key & obj & Hlook & Hxid). exists key, obj. eauto. Qed.

(** one record, under [k], is new or rebound to a window nobody holds *)
Lemma unique_windows_rebind st st' k :
  unique_windows st →
  (∀ key obj', key ≠ k → lookup_activity st' key = Some obj' →
     ∃ obj, lookup_activity st key = Some obj ∧ get_xid obj' = get_xid obj) →
  (∀ obj' xid, lookup_activity st' k = Some obj' → get_xid obj' = Some xid →
     ¬ window_tracked st xid) →
  unique_windows st'.
Proof.
  intros Huniq Hold Hnew key1 key2 obj1 obj2 xid H1 H2 Hx1 Hx2.
  destruct (decide (key1 = k)) as [->|Hne1], (decide (key2 = k)) as [->|Hne2].
  - done.
  - destruct (Hold _ _ Hne2 H2) as (obj & Hobj & Hxid).
    destruct (Hnew _ _ H1 Hx1). exists key2, obj. by rewrite <-Hxid.
  - destruct (Hold _ _ Hne1 H1) as (obj & Hobj & Hxid).
    destruct (Hnew _ _ H2 Hx2). exists key1, obj. by rewrite <-Hxid.
  - destruct (Hold _ _ Hne1 H1) as (o1 & Ho1 & Hxid1).
    destruct (Hold _ _ Hne2 H2) as (o2 & Ho2 & Hxid2).
    eapply (Huniq _ _ _ _ xid); [exact Ho1|exact Ho2|by rewrite <-Hxid1|by rewrite <-Hxid2].
Qed.


Lemma bind_shrinks {A B} (m : M A) (k : A → M B) st :
  shrinks st (m st).2 →
  (∀ x st', m st = (inr x, st') → shrinks st' (k x st').2) →
  shrinks st (bind m k st).2.
Proof.
  unfold bind. destruct (m st) as [[e|x] st'] eqn:Hm; simpl; [done|].
  intros H1 H2. eapply shrinks_trans; eauto.
Qed.

Lemma _notify_activity_activation_shrinks old new st :
  shrinks st (_notify_activity_activation old new st).2.
Proof.
  destruct (_notify_activity_activation_frame old new st) as (? & _ & ? & _).
  by apply shrinks_same.
Qed.

Lemma _internal_remove_activity_shrinks a st :
  shrinks st (_internal_remove_activity a st).2.
Proof.
  unfold _internal_remove_activity. run_monad.
  repeat (case_match; simplify_eq/=);
    first [ by apply shrinks_same | by eapply shrinks_delete ].
Qed.

Lemma _remove_activity_shrinks xid st : shrinks st (_remove_activity xid st).2.
Proof.
  unfold _remove_activity. run_monad.
  case_match; [apply _internal_remove_activity_shrinks | by apply shrinks_same].
Qed.

Lemma _window_closed_cb_shrinks window st :
  shrinks st (_window_closed_cb window st).2.
Proof.
  unfold _window_closed_cb. apply bind_shrinks.
  - case_decide; [apply _remove_activity_shrinks|apply shrinks_refl].
  - intros _ st' _. apply bind_shrinks; [apply shrinks_refl|].
    intros ? ? [= <- <-]. case_decide; [|apply shrinks_refl].
    apply bind_shrinks; [by apply shrinks_same|]. intros _ st'' _.
    apply _notify_activity_activation_shrinks.
Qed.

Lemma _active_window_changed_cb_shrinks active st :
  shrinks st (_active_window_changed_cb active st).2.
Proof.
  unfold _active_window_changed_cb. destruct active as [window|].
  - case_decide; [apply shrinks_refl|].
    apply bind_shrinks; [apply shrinks_refl|]. intros ? ? [= <- <-].
    apply bind_shrinks.
    + case_match.
      * apply bind_shrinks; [unfold deref; case_match; apply shrinks_refl|].
        intros obj st' _. case_match.
        -- apply bind_shrinks; [apply _notify_activity_activation_shrinks|].
           intros _ st'' _. by apply shrinks_same.
        -- apply bind_shrinks; [apply _notify_activity_activation_shrinks|].
           intros _ st'' _. by apply shrinks_same.
      * apply bind_shrinks; [apply _notify_activity_activation_shrinks|].
        intros _ st'' _. by apply shrinks_same.
    + intros _ st' _. by apply shrinks_same.
  - apply bind_shrinks; [by apply shrinks_same|]. intros _ st' _.
    apply bind_shrinks; [apply shrinks_refl|]. intros ? ? [= <- <-].
    apply _notify_activity_activation_shrinks.
Qed.

Lemma _activity_launch_timeout_cb_shrinks activity st :
  shrinks st (_activity_launch_timeout_cb activity st).2.
Proof.
  unfold _activity_launch_timeout_cb.
  apply bind_shrinks; [unfold deref; case_match; apply shrinks_refl|].
  intros obj st' _. apply bind_shrinks; [apply shrinks_refl|].
  intros ? ? [= <- <-].
  case_decide; [apply _internal_remove_activity_shrinks|apply shrinks_refl].
Qed.

Lemma notify_activity_launch_failed_shrinks activity_id st :
  shrinks st (notify_activity_launch_failed activity_id st).2.
Proof.
  unfold notify_activity_launch_failed.
  apply bind_shrinks; [apply shrinks_refl|]. intros ? ? [= <- <-].
  case_match; [|by apply shrinks_same].
  apply bind_shrinks; [by apply shrinks_same|]. intros _ st' _.
  apply _internal_remove_activity_shrinks.
Qed.


Lemma lookup_tracked_app st key a l :
  wf st → _activities st !! key = Some a →
  (heap st ++ l) !! a = heap st !! a.
Proof.
  intros Hwf Hkey. destruct (wf_tracked _ Hwf _ _ Hkey) as (obj & Hobj & _).
  apply lookup_app_l. by eapply lookup_lt_Some.
Qed.

(** registering a fresh object under [k] *)
Lemma unique_windows_register st k obj :
  wf st → unique_windows st →
  (∀ xid, get_xid obj = Some xid → ¬ window_tracked st xid) →
  unique_windows
    (store (<[k := length (heap st)]> (_activities st))
       (allocate (λ _, obj) st)).
Proof.
  intros Hwf Huniq Hfresh. apply (unique_windows_rebind st _ k); [done| |].
  - intros key obj' Hne. unfold lookup_activity. simpl.
    rewrite lookup_insert_ne by done.
    destruct (_activities st !! key) as [a|] eqn:Hkey; [|done]. simpl.
    rewrite (lookup_tracked_app _ key) by done. eauto.
  - intros obj' xid. unfold lookup_activity. simpl.
    rewrite lookup_insert_eq. simpl. rewrite lookup_app_r, Nat.sub_diag by done.
    simpl. intros [= <-]. apply Hfresh.
Qed.

Lemma unique_windows_log e st : unique_windows st → unique_windows (log e st).
Proof. apply unique_windows_shrinks. by apply shrinks_same. Qed.

Lemma _add_activity_unique_windows window bus st :
  wf st → unique_windows st →
  ¬ window_tracked st (window_xid window) →
  unique_windows (_add_activity window bus st).2.
Proof.
  intros Hwf Huniq Hfresh. destruct bus as [service|].
  - destruct (_activities st !! service_id service) as [a|] eqn:Hkey.
    + destruct (wf_tracked _ Hwf _ _ Hkey) as (obj0 & Hobj0 & Hid0).
      rewrite (_add_activity_existing _ _ a obj0) by done.
      apply unique_windows_log.
      apply (unique_windows_rebind st _ (service_id service)); [done| |].
      * intros key obj' Hne. unfold lookup_activity. simpl.
        destruct (_activities st !! key) as [a'|] eqn:Hkey'; [|done]. simpl.
        destruct (wf_tracked _ Hwf _ _ Hkey') as (obj1 & Hobj1 & Hid1).
        rewrite list_lookup_insert_ne by congruence. eauto.
      * intros obj' xid. unfold lookup_activity. simpl. rewrite Hkey. simpl.
        rewrite list_lookup_insert_eq by (by eapply lookup_lt_Some).
        by intros [= <-] [= <-].
    + destruct (get_bundle (service_type service)) as [bundle|] eqn:Hbundle.
      * rewrite (_add_activity_recovered _ _ bundle) by done.
        apply unique_windows_log.
        apply (unique_windows_register st _
                 (set_window window
                    (set_service service
                       (new_HomeActivity bundle (service_id service) (clock st)))));
          [done|done|]. by intros xid [= <-].
      * by rewrite _add_activity_missing_bundle.
  - change (_add_activity window None st) with (_add_window window st).
    rewrite _add_window_eq. apply unique_windows_log.
    apply (unique_windows_register st _ (new_HomeRawWindow window (clock st)));
      [done|done|]. by intros xid [= <-].
Qed.

Lemma notify_activity_launch_unique_windows activity_id service_name st :
  wf st → unique_windows st →
  unique_windows (notify_activity_launch activity_id service_name st).2.
Proof.
  intros Hwf Huniq. unfold notify_activity_launch.
  destruct (get_bundle service_name) as [bundle|]; [|done].
  apply unique_windows_log.
  by apply (unique_windows_register st _
              (connect_launch_timeout
                 (new_HomeActivity bundle activity_id (clock st)))).
Qed.


Lemma _dbus_name_owner_changed_cb_unique_windows name old new bus st :
  wf st → unique_windows st →
  unique_windows (_dbus_name_owner_changed_cb name old new bus st).2.
Proof.
  intros Hwf Huniq. unfold _dbus_name_owner_changed_cb.
  destruct (_ && _ && _); [|done].
  destruct (negb (isdigit _)); [done|].
  unfold bind at 1, tell. unfold bind at 1, result. set (st0 := log _ st).
  assert (wf st0) as Hwf0 by by apply wf_log.
  assert (unique_windows st0) as Huniq0 by by apply unique_windows_log.
  destruct (int _) as [x|xid]; [exact Huniq0|]. unfold bind at 1, get.
  destruct (_get_activity_by_xid xid st0) as [act|] eqn:Hfind; [|exact Huniq0].
  destruct (_get_activity_by_xid_tracked _ _ _ Hwf0 Hfind)
    as (obj & Hobj & Hkey & Hlaunched & Hxid).
  unfold bind at 1, deref. rewrite Hobj.
  destruct (class_of obj); [|exact Huniq0].
  unfold bind at 1, tell. unfold bind at 1.
  rewrite (_internal_remove_activity_eq _ obj) by (by rewrite ?Hkey).
  set (st1 := store _ _).
  assert (shrinks st0 st1) as Hshrinks by (by eapply shrinks_delete).
  destruct (get_window obj) as [window|] eqn:Hwindow;
    [|by apply (unique_windows_shrinks st0)].
  apply _add_activity_unique_windows.
  - apply wf_store_delete'; [|done]. apply wf_log, wf_focus; [by apply wf_log|].
    simpl. intros x. case_decide; [done|]. apply (wf_current_lt _ Hwf).
  - by apply (unique_windows_shrinks st0).
  - intros (key' & obj' & Hlook' & Hxid').
    assert (window_xid window = xid) as Hwx.
    { unfold get_xid in Hxid. rewrite Hwindow in Hxid. by injection Hxid. }
    assert (key' ≠ get_activity_id obj) as Hne.
    { intros ->. unfold lookup_activity in Hlook'. simpl in Hlook'.
      by rewrite lookup_delete_eq in Hlook'. }
    apply Hne. apply (Huniq0 _ _ obj' obj xid).
    + by apply Hshrinks.
    + unfold lookup_activity. rewrite Hkey. simpl. done.
    + by rewrite <-Hwx.
    + done.
Qed.

Lemma _get_activity_by_xid_untracked xid st :
  wf st → _get_activity_by_xid xid st = None → ¬ window_tracked st xid.
Proof.
  intros Hwf Hfind (key & obj & Hlook & Hxid).
  apply lookup_activity_Some in Hlook as (a & Hkey & Hobj & _); [|done].
  rewrite _get_activity_by_xid_None in Hfind.
  specialize (Hfind _ _ Hkey). unfold holds_xid in Hfind.
  rewrite Hobj, Hxid, bool_decide_eq_true_2, andb_true_r in Hfind by done.
  destruct (wf_heap _ Hwf _ _ Hobj) as (_ & Hlaunched & _).
  unfold get_xid in Hxid. destruct (get_window obj) eqn:Hwindow; [|done].
  rewrite (proj2 Hlaunched) in Hfind by eauto. done.
Qed.

Lemma step_unique_windows st e :
  wf st → unique_windows st → event_fresh st e → unique_windows (step st e).
Proof.
  intros Hwf Huniq Hfresh. unfold step. destruct e; simpl.
  - unfold _window_opened_cb. case_decide; [|done].
    apply _add_activity_unique_windows; [done|done|].
    apply _get_activity_by_xid_untracked; auto.
  - eapply unique_windows_shrinks; [apply _window_closed_cb_shrinks|done].
  - eapply unique_windows_shrinks; [apply _active_window_changed_cb_shrinks|done].
  - by apply _dbus_name_owner_changed_cb_unique_windows.
  - unfold _launch_timeout_signal. repeat case_match; try done.
    eapply unique_windows_shrinks; [apply _activity_launch_timeout_cb_shrinks|done].
  - by apply notify_activity_launch_unique_windows.
  - eapply unique_windows_shrinks; [apply notify_activity_launch_failed_shrinks|done].
Qed.

Lemma run_unique_windows es st :
  wf st → unique_windows st → fresh_windows st es → unique_windows (run st es).
Proof.
  revert st. induction es as [|e es IH]; intros st Hwf Huniq Hfresh; [done|].
  destruct Hfresh as [He Hes]. simpl. apply IH; [by apply step_wf| |done].
  by apply step_unique_windows.
Qed.

Lemma unique_windows_init : unique_windows init.
Proof. intros key1 key2 obj1 obj2 xid H1. done. Qed.

(** C8, as amended.  After any sequence of events from the initial state
    no two tracked records share an activity id.  No two tracked records
    hold the same window identifier provided every window-open event of the
    sequence concerns a window for which the model finds no record at that
    time. *)
Theorem uniqueness es :
  unique_ids (run init es) ∧
  (fresh_windows init es → unique_windows (run init es)).
Proof.
  split.
  - apply reachable_unique_ids, run_wf, wf_init.
  - apply run_unique_windows; [apply wf_init|apply unique_windows_init].
Qed.

End Uniqueness.

(** ** Service names *)

Section Names.

Lemma decode_ascii c s :
  (N_of_ascii c <? 0x80)%N = true →
  decode (String c s) = N_of_ascii c :: decode s.
Proof. intros Hc. cbn [decode]. cbv zeta. by rewrite Hc. Qed.

(** rewrites the head of a numeral into its code point and its value *)
Ltac read_digit :=
  rewrite decode_ascii by reflexivity;
  cbn [int_from forallb];
  repeat match goal with
    | |- context [decimal (N_of_ascii ?c)] =>
        let v := eval vm_compute in (decimal (N_of_ascii c)) in
        change (decimal (N_of_ascii c)) with v
    | |- context [is_digit (N_of_ascii ?c)] =>
        change (is_digit (N_of_ascii c)) with true
    end;
  cbn [andb].

Lemma int_from_of_uint_acc d acc :
  int_from (Npos acc) (decode (NilEmpty.string_of_uint d))
  = Some (Npos (Pos.of_uint_acc d acc)).
Proof.
  revert acc.
  induction d; intros acc; cbn [NilEmpty.string_of_uint Pos.of_uint_acc];
    [done|read_digit; rewrite <-IHd; f_equal; lia..].
Qed.

Lemma int_from_of_uint d :
  int_from 0 (decode (NilEmpty.string_of_uint d)) = Some (N.of_uint d).
Proof.
  induction d; cbn [NilEmpty.string_of_uint]; [done|read_digit..];
    [exact IHd|apply int_from_of_uint_acc..].
Qed.

Lemma decode_of_uint_nonempty d :
  d ≠ Decimal.Nil → decode (NilEmpty.string_of_uint d) ≠ [].
Proof.
  destruct d; [done|intros _; cbn [NilEmpty.string_of_uint];
                     by rewrite decode_ascii by reflexivity..].
Qed.

Lemma int_format_d xid : int (format_d xid) = inr xid.
Proof.
  unfold int, format_d, NilZero.string_of_uint.
  rewrite <-(DecimalN.Unsigned.of_to xid) at 2.
  pose proof (decode_of_uint_nonempty (N.to_uint xid)) as Hne.
  pose proof (int_from_of_uint (N.to_uint xid)) as Hint.
  destruct (N.to_uint xid); [by vm_compute|..];
    (destruct (decode _); [by destruct Hne|by rewrite Hint]).
Qed.

Lemma all_digits_string_of_uint d :
  forallb is_digit (decode (NilEmpty.string_of_uint d)) = true.
Proof. induction d; cbn [NilEmpty.string_of_uint]; [done|by read_digit..]. Qed.

Lemma isdigit_format_d xid : isdigit (format_d xid) = true.
Proof.
  unfold isdigit, format_d, NilZero.string_of_uint.
  pose proof (decode_of_uint_nonempty (N.to_uint xid)) as Hne.
  pose proof (all_digits_string_of_uint (N.to_uint xid)) as Hall.
  destruct (N.to_uint xid); [by vm_compute|..];
    (destruct (decode _); [by destruct Hne|exact Hall]).
Qed.

Lemma substring_all s : substring 0 (String.length s) s = s.
Proof. induction s as [|c s IH]; simpl; [done|by rewrite IH]. Qed.

Lemma string_from_service_name s :
  string_from (String.length _SERVICE_NAME) (_SERVICE_NAME +:+ s) = s.
Proof.
  unfold string_from. simpl. rewrite Nat.sub_0_r. apply substring_all.
Qed.

Lemma startswith_service_name s : startswith (_SERVICE_NAME +:+ s) _SERVICE_NAME = true.
Proof. unfold startswith. simpl. by destruct s. Qed.

End Names.

(** ** More equations of the callbacks *)

Section MoreEquations.
Context `{!Environment}.

Lemma logs_app es1 es2 st : logs (es1 ++ es2) st = logs es2 (logs es1 st).
Proof. unfold logs. by rewrite foldl_app. Qed.

Lemma _notify_activity_activation_eq old new st :
  (∀ a, old = Some a → a < length (heap st)) →
  (∀ a, new = Some a → a < length (heap st)) →
  _notify_activity_activation old new st =
    (inr (), logs (activation_notify st old new) st).
Proof.
  intros Hold Hnew. unfold _notify_activity_activation, activation_notify.
  case_decide; [done|].
  unfold service_set_active, deactivation, activation.
  assert (∀ o, (∀ a, o = Some a → a < length (heap st)) →
               ∀ a, o = Some a → is_Some (heap st !! a)) as Hsome.
  { intros o Ho a Ha. apply lookup_lt_is_Some_2. eauto. }
  destruct old as [a|], new as [b|]; simpl.
  - destruct (Hsome _ Hold a eq_refl) as [obja Ha].
    destruct (Hsome _ Hnew b eq_refl) as [objb Hb].
    run_monad. rewrite Ha. simpl.
    destruct (get_service obja); simpl; rewrite Hb; simpl;
      by destruct (get_service objb).
  - destruct (Hsome _ Hold a eq_refl) as [obja Ha].
    run_monad. rewrite Ha. simpl. by destruct (get_service obja).
  - destruct (Hsome _ Hnew b eq_refl) as [objb Hb].
    run_monad. rewrite Hb. simpl. by destruct (get_service objb).
  - done.
Qed.

Lemma _active_window_changed_cb_None_eq st :
  wf st →
  _active_window_changed_cb None st =
    (inr (), logs (deactivation st (_current_activity st))
               (log (Emit (active_activity_changed None)) st)).
Proof.
  intros Hwf. unfold _active_window_changed_cb.
  unfold bind at 1, emit, tell. unfold bind at 1, get.
  by rewrite _notify_activity_activation_None by apply (wf_current_lt _ Hwf).
Qed.

Lemma _active_window_changed_cb_found_eq st window act :
  wf st → window_type window = WINDOW_NORMAL →
  _get_activity_by_xid (window_xid window) st = Some act →
  _active_window_changed_cb (Some window) st =
    (inr (),
     log (Emit (active_activity_changed (Some act)))
       (focus (Some act)
          (logs (activation_notify st (_current_activity st) (Some act)) st))).
Proof.
  intros Hwf Hnormal Hfind.
  destruct (_get_activity_by_xid_tracked _ _ _ Hwf Hfind)
    as (obj & Hobj & Hkey & Hlaunched & _).
  unfold _active_window_changed_cb. rewrite decide_False by naive_solver.
  unfold bind at 1, get. rewrite Hfind.
  unfold bind at 1. unfold bind at 1, deref. rewrite Hobj, Hlaunched.
  unfold bind at 1.
  rewrite _notify_activity_activation_eq;
    [|apply (wf_current_lt _ Hwf)|intros ? [= <-]; by eapply lookup_lt_Some].
  done.
Qed.

Lemma _active_window_changed_cb_unresolved_eq st window :
  wf st → window_type window = WINDOW_NORMAL →
  _get_activity_by_xid (window_xid window) st = None →
  _active_window_changed_cb (Some window) st =
    (inr (),
     log (Emit (active_activity_changed None))
       (log (LogError (log_no_model_for_window (window_xid window)))
          (focus None (logs (deactivation st (_current_activity st)) st)))).
Proof.
  intros Hwf Hnormal Hfind.
  unfold _active_window_changed_cb. rewrite decide_False by naive_solver.
  unfold bind at 1, get. rewrite Hfind.
  unfold bind at 1. unfold bind at 1.
  by rewrite _notify_activity_activation_None by apply (wf_current_lt _ Hwf).
Qed.

Lemma _remove_activity_missing xid st :
  _get_activity_by_xid xid st = None →
  _remove_activity xid st =
    (inr (), log (LogError (log_no_model_for_window xid)) st).
Proof. intros Hfind. unfold _remove_activity. run_monad. by rewrite Hfind. Qed.

(** the state a removal leaves *)
Lemma _remove_activity_found_eq xid a st :
  wf st → _get_activity_by_xid xid st = Some a →
  ∃ obj, heap st !! a = Some obj ∧
         _activities st !! get_activity_id obj = Some a ∧
         _remove_activity xid st =
           (inr (),
            store (delete (get_activity_id obj) (_activities st))
              (log (Emit (activity_removed a))
                 (focus (if decide (Some a = _current_activity st)
                         then None else _current_activity st) st))).
Proof.
  intros Hwf Hfind.
  destruct (_get_activity_by_xid_tracked _ _ _ Hwf Hfind)
    as (obj & Hobj & Hkey & _).
  exists obj. split_and!; [done|done|].
  rewrite (_remove_activity_found _ a) by done.
  apply _internal_remove_activity_eq; [done|by rewrite Hkey].
Qed.

Lemma notify_activity_launch_failed_eq activity_id a st :
  wf st → _activities st !! activity_id = Some a →
  notify_activity_launch_failed activity_id st =
    (inr (),
     store (delete activity_id (_activities st))
       (log (Emit (activity_removed a))
          (focus (if decide (Some a = _current_activity st)
                  then None else _current_activity st)
             (log (LogDebug (log_launch_failed activity_id)) st)))).
Proof.
  intros Hwf Hkey. destruct (wf_tracked _ Hwf _ _ Hkey) as (obj & Hobj & Hid).
  unfold notify_activity_launch_failed. unfold bind at 1, get. rewrite Hkey.
  unfold bind at 1, tell.
  rewrite (_internal_remove_activity_eq _ obj); simpl;
    [by rewrite Hid|done|by rewrite Hid, Hkey].
Qed.

Lemma notify_activity_launch_failed_missing activity_id st :
  _activities st !! activity_id = None →
  notify_activity_launch_failed activity_id st =
    (inr (), log (LogError (log_no_model_for_activity activity_id)) st).
Proof.
  intros Hkey. unfold notify_activity_launch_failed. run_monad. by rewrite Hkey.
Qed.

End MoreEquations.

(** ** Exceptions *)

Section Failures.
Context `{!Environment}.

Lemma _add_activity_failure window bus st x :
  wf st → (_add_activity window bus st).1 = inl x →
  ∃ service, bus = Some service ∧
             x = RuntimeError (service_type service) ∧
             get_bundle (service_type service) = None.
Proof.
  intros Hwf. destruct bus as [service|]; [|done].
  destruct (_activities st !! service_id service) as [a|] eqn:Hkey.
  - destruct (wf_tracked _ Hwf _ _ Hkey) as (obj & Hobj & _).
    by rewrite (_add_activity_existing _ _ a obj).
  - destruct (get_bundle (service_type service)) as [bundle|] eqn:Hbundle.
    + by rewrite (_add_activity_recovered _ _ bundle).
    + rewrite _add_activity_missing_bundle by done. intros [= <-]. eauto.
Qed.

Lemma _window_closed_cb_ok window st :
  wf st → (_window_closed_cb window st).1 = inr ().
Proof.
  intros Hwf.
  destruct (decide (window_type window = WINDOW_NORMAL)) as [Hnormal|Hother].
  - destruct (_get_activity_by_xid (window_xid window) st) as [a|] eqn:Hfind.
    + destruct (_remove_activity_found_eq _ _ _ Hwf Hfind)
        as (obj & Hobj & Hkey & Heq).
      pose proof (_remove_activity_wf (window_xid window) st Hwf) as Hwf1.
      rewrite Heq in Hwf1.
      erewrite _window_closed_cb_tail; [done| |exact Hwf1].
      by rewrite decide_True.
    + erewrite _window_closed_cb_tail; [done| |by apply wf_log].
      rewrite decide_True by done. by apply _remove_activity_missing.
  - erewrite _window_closed_cb_tail; [done| |exact Hwf].
    by rewrite decide_False.
Qed.

Lemma _active_window_changed_cb_ok active st :
  wf st → (_active_window_changed_cb active st).1 = inr ().
Proof.
  intros Hwf. destruct active as [window|].
  - destruct (decide (window_type window = WINDOW_NORMAL)) as [Hnormal|Hother].
    + destruct (_get_activity_by_xid (window_xid window) st) as [a|] eqn:Hfind.
      * by rewrite (_active_window_changed_cb_found_eq _ _ a).
      * by rewrite _active_window_changed_cb_unresolved_eq.
    + unfold _active_window_changed_cb. by rewrite decide_True.
  - by rewrite _active_window_changed_cb_None_eq.
Qed.

Lemma _launch_timeout_signal_ok activity st :
  wf st → (_launch_timeout_signal activity st).1 = inr ().
Proof.
  intros Hwf. unfold _launch_timeout_signal.
  destruct (heap st !! activity) as [obj|] eqn:Hobj; [|done].
  destruct (launch_timeout_connected obj); [|done].
  rewrite (_activity_launch_timeout_cb_eq _ obj) by done.
  case_decide; [|done]. by rewrite (_internal_remove_activity_eq _ obj).
Qed.

Lemma notify_activity_launch_failed_ok activity_id st :
  wf st → (notify_activity_launch_failed activity_id st).1 = inr ().
Proof.
  intros Hwf. destruct (_activities st !! activity_id) as [a|] eqn:Hkey.
  - by rewrite (notify_activity_launch_failed_eq _ a).
  - by rewrite notify_activity_launch_failed_missing.
Qed.

Lemma _dbus_name_owner_changed_cb_failure name old new bus st x :
  wf st → (_dbus_name_owner_changed_cb name old new bus st).1 = inl x →
  (accepts_name name old new = true ∧ name_xid name = inl x) ∨
  (∃ service, bus = Some service ∧
              x = RuntimeError (service_type service) ∧
              get_bundle (service_type service) = None).
Proof.
  intros Hwf. unfold _dbus_name_owner_changed_cb, accepts_name, name_xid.
  destruct (_ && _ && _); [|done].
  destruct (isdigit _); [|done]. cbn [negb andb].
  unfold bind at 1, tell. unfold bind at 1, result. set (st0 := log _ st).
  assert (wf st0) as Hwf0 by by apply wf_log.
  destruct (int _) as [y|xid]; [intros [= ->]; by left|].
  unfold bind at 1, get. intros Hx. right. revert Hx.
  destruct (_get_activity_by_xid xid st0) as [act|] eqn:Hfind; [|done].
  destruct (_get_activity_by_xid_tracked _ _ _ Hwf0 Hfind)
    as (obj & Hobj & Hkey & Hlaunched & Hxid).
  unfold bind at 1, deref. rewrite Hobj.
  destruct (class_of obj); [|done].
  unfold bind at 1, tell. unfold bind at 1.
  rewrite (_internal_remove_activity_eq _ obj) by (by rewrite ?Hkey).
  unfold get_xid in Hxid. destruct (get_window obj) as [window|]; [|done].
  apply _add_activity_failure.
  apply wf_store_delete'; [|done]. apply wf_log, wf_focus; [by apply wf_log|].
  simpl. intros y. case_decide; [done|]. apply (wf_current_lt _ Hwf).
Qed.

(** X3.  In a reachable state a callback raises only in three ways:
    [RuntimeError] from a window-open or name-owner change whose service
    has a type without bundle, [ValueError] from a launch notification for
    such a type, and the [ValueError] of [int] from a name-owner change
    whose name passed the guards, [isdigit()] included, with a suffix that
    [int] does not read (a digit that is no decimal digit).  In particular
    [del self._activities[act_id]] never meets a missing key. *)
Theorem callbacks_raise_only_expected st e x :
  reachable st → (handle e st).1 = inl x → expected_failure e x.
Proof.
  intros Hwf%reachable_wf. destruct e; simpl.
  - unfold _window_opened_cb. case_decide; [|done].
    intros Hx. apply _add_activity_failure in Hx; [|done].
    by destruct Hx as (service & -> & ? & ?).
  - by rewrite _window_closed_cb_ok.
  - by rewrite _active_window_changed_cb_ok.
  - intros Hx. by apply _dbus_name_owner_changed_cb_failure in Hx.
  - by rewrite _launch_timeout_signal_ok.
  - unfold notify_activity_launch.
    destruct (get_bundle service_name) eqn:Hbundle; [done|].
    by intros [= <-].
  - by rewrite notify_activity_launch_failed_ok.
Qed.

End Failures.

(** ** Further properties of the callbacks *)

Section MoreProperties.
Context `{!Environment}.

(** X1.  [_notify_activity_activation(old, new)] on objects of the store
    never raises and changes nothing but the trace.  With [old == new] it
    makes no call; otherwise it calls [set_active(False)] on the service of
    [old], if it has one, and then [set_active(True)] on the service of
    [new], if it has one. *)
Theorem activation_notify_effects old new st :
  (∀ a, old = Some a → a < length (heap st)) →
  (∀ a, new = Some a → a < length (heap st)) →
  let r := _notify_activity_activation old new st in
  r.1 = inr () ∧
  heap r.2 = heap st ∧ _activities r.2 = _activities st ∧
  _current_activity r.2 = _current_activity st ∧
  trace r.2 = trace st ++
    (if decide (old = new) then []
     else deactivation st old ++ activation st new).
Proof.
  intros Hold Hnew r. subst r.
  rewrite _notify_activity_activation_eq by done. simpl.
  destruct (logs_frame (activation_notify st old new) st) as (-> & _ & -> & ->).
  by rewrite trace_logs.
Qed.

(** X2.  [notify_activity_launch_failed] never raises in a reachable
    state.  For a registered id it deletes the entry, clears the focus
    pointer if it designates the object, and emits one [activity-removed]
    after a debug record; for an unknown id it only logs an error. *)
Theorem launch_failed_outcome st activity_id :
  reachable st →
  let r := notify_activity_launch_failed activity_id st in
  r.1 = inr () ∧ heap r.2 = heap st ∧
  match _activities st !! activity_id with
  | Some a =>
      _activities r.2 = delete activity_id (_activities st) ∧
      _current_activity r.2 =
        (if decide (_current_activity st = Some a)
         then None else _current_activity st) ∧
      trace r.2 = trace st ++ [LogDebug (log_launch_failed activity_id);
                               Emit (activity_removed a)]
  | None =>
      _activities r.2 = _activities st ∧
      _current_activity r.2 = _current_activity st ∧
      trace r.2 = trace st ++ [LogError (log_no_model_for_activity activity_id)]
  end.
Proof.
  intros Hwf%reachable_wf r. subst r.
  destruct (_activities st !! activity_id) as [a|] eqn:Hkey.
  - rewrite (notify_activity_launch_failed_eq _ a) by done. simpl.
    split_and!; try done.
    + repeat case_decide; congruence.
    + by rewrite <-app_assoc.
  - by rewrite notify_activity_launch_failed_missing.
Qed.

Lemma _dbus_name_owner_changed_cb_no_raw_eq name old new bus st :
  wf st →
  (accepts_name name old new = true →
   ∀ xid a obj, name_xid name = inr xid →
                _get_activity_by_xid xid st = Some a →
                heap st !! a = Some obj → class_of obj = HomeActivity) →
  _dbus_name_owner_changed_cb name old new bus st =
    (if accepts_name name old new
     then match name_xid name with inl x => inl x | inr _ => inr () end
     else inr (),
     if accepts_name name old new
     then log (LogDebug (log_instance_launch_detected name)) st else st).
Proof.
  intros Hwf Hraw.
  unfold _dbus_name_owner_changed_cb, accepts_name, name_xid in *.
  destruct (startswith name _SERVICE_NAME && nonempty new
            && negb (nonempty old)); simpl in *; [|done].
  destruct (isdigit _); simpl in *; [|done].
  unfold bind at 1, tell. unfold bind at 1, result.
  destruct (int _) as [x|xid] eqn:Hint; [done|]. unfold bind at 1, get.
  change (_get_activity_by_xid ?x (log ?e st)) with (_get_activity_by_xid x st).
  destruct (_get_activity_by_xid _ st) as [a|] eqn:Hfind; [|done].
  destruct (_get_activity_by_xid_tracked _ _ _ Hwf Hfind) as (obj & Hobj & _).
  unfold bind at 1, deref. simpl. rewrite Hobj.
  by rewrite (Hraw eq_refl xid a obj eq_refl Hfind Hobj).
Qed.

(** X4.  A name-owner change touches the registry only to promote a raw
    window.  When the name does not pass the guards the callback returns
    and does nothing.  When it passes them, the debug record is logged;
    then, if [int] does not read the suffix, its [ValueError] leaves the
    callback, and if the window identifier read is resolved to no record,
    or to a [HomeActivity], the callback returns.  In all these cases
    store, registry and focus pointer are unchanged. *)
Theorem name_owner_changed_without_raw_window name old new bus st :
  reachable st →
  (accepts_name name old new = true →
   ∀ xid a obj, name_xid name = inr xid →
                _get_activity_by_xid xid st = Some a →
                heap st !! a = Some obj → class_of obj = HomeActivity) →
  let r := _dbus_name_owner_changed_cb name old new bus st in
  r.1 = (if accepts_name name old new
         then match name_xid name with inl x => inl x | inr _ => inr () end
         else inr ()) ∧
  heap r.2 = heap st ∧ _activities r.2 = _activities st ∧
  _current_activity r.2 = _current_activity st ∧
  trace r.2 = trace st ++
    (if accepts_name name old new
     then [LogDebug (log_instance_launch_detected name)] else []).
Proof.
  intros Hwf%reachable_wf Hraw r. subst r.
  rewrite _dbus_name_owner_changed_cb_no_raw_eq by done.
  destruct (accepts_name name old new); simpl; [done|].
  by rewrite app_nil_r.
Qed.

(** X5.  The bus name [_add_activity] builds for a window,
    [_SERVICE_NAME + '%d' % xid], is accepted by the guards of
    [_dbus_name_owner_changed_cb] (with a new owner and no old one) and
    read back as the same [xid]. *)
Theorem service_name_round_trip xid :
  names_window (activity_service_name xid) xid ∧
  ∀ new, nonempty new = true →
         accepts_name (activity_service_name xid) "" new = true ∧
         name_xid (activity_service_name xid) = inr xid.
Proof.
  assert (names_window (activity_service_name xid) xid) as Hname.
  { unfold names_window, activity_service_name.
    rewrite startswith_service_name, string_from_service_name.
    by rewrite isdigit_format_d, int_format_d. }
  split; [done|]. intros new Hnew. destruct Hname as (H1 & H2 & H3).
  unfold accepts_name, name_xid. by rewrite H1, H2, H3, Hnew.
Qed.

(** X6.  When the active window becomes [None] the callback emits
    [active-activity-changed(None)], then deactivates the service of the
    focused object, and leaves [_current_activity] as it was. *)
Theorem active_window_none_keeps_focus st :
  reachable st →
  let r := _active_window_changed_cb None st in
  r.1 = inr () ∧
  heap r.2 = heap st ∧ _activities r.2 = _activities st ∧
  _current_activity r.2 = _current_activity st ∧
  trace r.2 = trace st ++ Emit (active_activity_changed None)
                :: deactivation st (_current_activity st).
Proof.
  intros Hwf%reachable_wf r. subst r.
  rewrite _active_window_changed_cb_None_eq by done. simpl.
  match goal with |- context [logs ?es ?s] =>
    destruct (logs_frame es s) as (-> & _ & -> & ->); rewrite trace_logs end.
  simpl. by rewrite <-app_assoc.
Qed.

(** X7.  When the active window is a normal window for which a record is
    found, that object becomes the focused one; the callback runs
    activation-notify from the previous focus to it (nothing when it is
    the same object) and then emits [active-activity-changed] for it. *)
Theorem active_window_found_takes_focus st window a :
  reachable st →
  window_type window = WINDOW_NORMAL →
  _get_activity_by_xid (window_xid window) st = Some a →
  let r := _active_window_changed_cb (Some window) st in
  r.1 = inr () ∧
  heap r.2 = heap st ∧ _activities r.2 = _activities st ∧
  _current_activity r.2 = Some a ∧
  trace r.2 = trace st ++
    (if decide (_current_activity st = Some a) then []
     else deactivation st (_current_activity st) ++ activation st (Some a))
    ++ [Emit (active_activity_changed (Some a))].
Proof.
  intros Hwf%reachable_wf Hnormal Hfind r. subst r.
  rewrite (_active_window_changed_cb_found_eq _ _ a) by done. simpl.
  match goal with |- context [logs ?es ?s] =>
    destruct (logs_frame es s) as (-> & _ & -> & _); rewrite trace_logs end.
  by rewrite <-app_assoc.
Qed.

Lemma step_launch_timeout st activity :
  step st (launch_timeout activity) =
    match heap st !! activity with
    | Some obj =>
        if launch_timeout_connected obj
           && bool_decide (is_Some (_activities st !! get_activity_id obj))
        then store (delete (get_activity_id obj) (_activities st))
               (log (Emit (activity_removed activity))
                  (focus (if decide (Some activity = _current_activity st)
                          then None else _current_activity st) st))
        else st
    | None => st
    end.
Proof.
  unfold step. simpl. unfold _launch_timeout_signal.
  destruct (heap st !! activity) as [obj|] eqn:Hobj; [|done].
  destruct (launch_timeout_connected obj); [|done].
  rewrite (_activity_launch_timeout_cb_eq _ obj) by done. simpl.
  case_decide as Hkey.
  - rewrite bool_decide_eq_true_2 by done.
    by rewrite (_internal_remove_activity_eq _ obj).
  - by rewrite bool_decide_eq_false_2.
Qed.

(** X9.  Delivering the launch timeout of an object twice is the same as
    delivering it once: the second delivery finds the id unregistered. *)
Theorem launch_timeout_idempotent st activity :
  step (step st (launch_timeout activity)) (launch_timeout activity) =
  step st (launch_timeout activity).
Proof.
  rewrite (step_launch_timeout st).
  destruct (heap st !! activity) as [obj|] eqn:Hobj.
  2:{ by rewrite step_launch_timeout, Hobj. }
  destruct (launch_timeout_connected obj) eqn:Hconnected; simpl.
  2:{ by rewrite step_launch_timeout, Hobj, Hconnected. }
  case_bool_decide as Hkey.
  - rewrite step_launch_timeout. simpl. rewrite Hobj, Hconnected. simpl.
    rewrite bool_decide_eq_false_2; [done|].
    rewrite lookup_delete_eq. by intros [? [=]].
  - rewrite step_launch_timeout, Hobj, Hconnected. simpl.
    by rewrite bool_decide_eq_false_2.
Qed.

(** X11.  When the id a window's service reports is already registered,
    the window-open callback binds the registered object in place: it sets
    service and window on that object, creates no object, leaves registry
    and focus pointer alone, emits one [activity-added], and does not raise
    whatever the bundle registry holds for the service's type. *)
Theorem window_opened_binds_registered st window service a obj :
  window_type window = WINDOW_NORMAL →
  _activities st !! service_id service = Some a →
  heap st !! a = Some obj →
  let r := _window_opened_cb window (Some service) st in
  r.1 = inr () ∧
  _activities r.2 = _activities st ∧
  _current_activity r.2 = _current_activity st ∧
  length (heap r.2) = length (heap st) ∧
  heap r.2 !! a = Some (set_window window (set_service service obj)) ∧
  (∀ b, b ≠ a → heap r.2 !! b = heap st !! b) ∧
  trace r.2 = trace st ++ [Emit (activity_added a)].
Proof.
  intros Hnormal Hkey Hobj r. subst r. unfold _window_opened_cb.
  rewrite decide_True by done.
  rewrite (_add_activity_existing _ _ a obj) by done. simpl.
  split_and!; try done.
  - by rewrite length_insert.
  - apply list_lookup_insert_eq. by eapply lookup_lt_Some.
  - intros b Hb. by rewrite list_lookup_insert_ne.
Qed.

(** X13.  Closing a normal window in a reachable state never raises and
    leaves the store alone.  If a record is found for the window, exactly
    its entry is deleted, the focus pointer is cleared if it designated it,
    and [activity-removed] is emitted; otherwise registry and focus pointer
    are unchanged and an error is logged.  In both cases, if the registry
    is then empty, [active-activity-changed(None)] and the deactivation of
    the remaining focus follow. *)
Theorem window_closed_removes_found st window :
  reachable st →
  window_type window = WINDOW_NORMAL →
  let r := _window_closed_cb window st in
  let emptied st' focused :=
    if decide (_activities st' = ∅)
    then Emit (active_activity_changed None) :: deactivation st focused
    else [] in
  r.1 = inr () ∧ heap r.2 = heap st ∧
  match _get_activity_by_xid (window_xid window) st with
  | Some a =>
      ∃ obj, heap st !! a = Some obj ∧ get_xid obj = Some (window_xid window) ∧
        _activities r.2 = delete (get_activity_id obj) (_activities st) ∧
        _current_activity r.2 =
          (if decide (_current_activity st = Some a)
           then None else _current_activity st) ∧
        trace r.2 = trace st ++ Emit (activity_removed a)
                      :: emptied r.2 (_current_activity r.2)
  | None =>
      _activities r.2 = _activities st ∧
      _current_activity r.2 = _current_activity st ∧
      trace r.2 = trace st
                    ++ LogError (log_no_model_for_window (window_xid window))
                    :: emptied r.2 (_current_activity st)
  end.
Proof.
  intros Hwf%reachable_wf Hnormal r emptied. subst r.
  destruct (_get_activity_by_xid (window_xid window) st) as [a|] eqn:Hfind.
  - destruct (_remove_activity_found_eq _ _ _ Hwf Hfind)
      as (obj & Hobj & Hkey & Heq).
    destruct (_get_activity_by_xid_tracked _ _ _ Hwf Hfind)
      as (obj' & Hobj' & _ & _ & Hxid).
    assert (obj' = obj) as -> by congruence.
    pose proof (_remove_activity_wf (window_xid window) st Hwf) as Hwf1.
    rewrite Heq in Hwf1.
    erewrite _window_closed_cb_tail; [| |exact Hwf1].
    2:{ by rewrite decide_True. }
    assert ((if decide (Some a = _current_activity st)
             then None else _current_activity st)
            = (if decide (_current_activity st = Some a)
               then None else _current_activity st)) as Hfocus
      by (repeat case_decide; congruence).
    unfold emptied. cbn [fst snd].
    set (st1 := store _ _) in *.
    destruct (decide (_activities st1 = ∅)) as [Hempty|Hnonempty].
    + destruct (logs_frame (deactivation st1 (_current_activity st1))
                  (log (Emit (active_activity_changed None)) st1))
        as (-> & _ & -> & ->).
      rewrite trace_logs. rewrite (decide_True (P := _activities _ = ∅)) by exact Hempty.
      split_and!; [done|done|]. exists obj.
      change (_current_activity (log ?e st1)) with (_current_activity st1).
      change (_current_activity st1) with
        (if decide (Some a = _current_activity st)
         then None else _current_activity st).
      rewrite Hfocus. split_and!; try done.
      change (deactivation st1 ?c) with (deactivation st c).
      simpl. by rewrite <-!app_assoc.
    + rewrite (decide_False (P := _activities _ = ∅)) by exact Hnonempty. split_and!; [done|done|].
      exists obj. simpl. by rewrite Hfocus.
  - erewrite _window_closed_cb_tail; [| |by apply wf_log].
    2:{ rewrite decide_True by done. by apply _remove_activity_missing. }
    unfold emptied. cbn [fst snd].
    set (st1 := log _ st) in *.
    destruct (decide (_activities st1 = ∅)) as [Hempty|Hnonempty].
    + destruct (logs_frame (deactivation st1 (_current_activity st1))
                  (log (Emit (active_activity_changed None)) st1))
        as (-> & _ & -> & ->).
      rewrite trace_logs. rewrite (decide_True (P := _activities _ = ∅)) by exact Hempty.
      split_and!; try done.
      change (deactivation st1 (_current_activity st1)) with
        (deactivation st (_current_activity st)).
      simpl. by rewrite <-!app_assoc.
    + by rewrite (decide_False (P := _activities _ = ∅)) by exact Hnonempty.
Qed.

End MoreProperties.

(** ** Resolving a window that has just opened *)

Section Resolution.
Context `{!Environment}.

Lemma _get_activity_by_xid_registered xid k obj st :
  wf st → _get_activity_by_xid xid st = None →
  get_launched obj = true → get_xid obj = Some xid →
  _get_activity_by_xid xid
    (store (<[k := length (heap st)]> (_activities st))
       (allocate (λ _, obj) st)) = Some (length (heap st)).
Proof.
  intros Hwf Hfresh Hlaunched Hxid.
  apply (_get_activity_by_xid_unique _ _ k).
  - simpl. by rewrite lookup_insert_eq.
  - unfold holds_xid. simpl. rewrite lookup_app_r, Nat.sub_diag by done.
    simpl. by rewrite Hlaunched, Hxid, bool_decide_eq_true_2.
  - intros key' a'. simpl. rewrite lookup_insert.
    case_decide; [by intros [= <-]|]. intros Hkey' Hholds.
    destruct (wf_tracked _ Hwf _ _ Hkey') as (obj' & Hobj' & _).
    rewrite _get_activity_by_xid_None in Hfresh.
    rewrite (holds_xid_prefix st) in Hholds;
      [|by eapply lookup_lt_Some|by eexists].
    by rewrite (Hfresh _ _ Hkey') in Hholds.
Qed.

Lemma _get_activity_by_xid_updated xid k a obj st :
  wf st → _get_activity_by_xid xid st = None →
  _activities st !! k = Some a →
  get_launched obj = true → get_xid obj = Some xid →
  _get_activity_by_xid xid (update a obj st) = Some a.
Proof.
  intros Hwf Hfresh Hkey Hlaunched Hxid.
  destruct (wf_tracked _ Hwf _ _ Hkey) as (obj0 & Hobj0 & _).
  apply (_get_activity_by_xid_unique _ _ k); [done| |].
  - unfold holds_xid. simpl.
    rewrite list_lookup_insert_eq by (by eapply lookup_lt_Some).
    by rewrite Hlaunched, Hxid, bool_decide_eq_true_2.
  - intros key' a' Hkey' Hholds.
    destruct (decide (a' = a)) as [|Hne]; [done|].
    unfold holds_xid in Hholds. simpl in Hholds.
    rewrite list_lookup_insert_ne in Hholds by done.
    rewrite _get_activity_by_xid_None in Hfresh.
    specialize (Hfresh _ _ Hkey'). unfold holds_xid in Hfresh.
    by rewrite Hfresh in Hholds.
Qed.

(** what a successful [_add_activity] for an untracked window leaves *)
Lemma _add_activity_resolves window bus st st' :
  wf st → _get_activity_by_xid (window_xid window) st = None →
  _add_activity window bus st = (inr (), st') →
  ∃ a obj,
    _get_activity_by_xid (window_xid window) st' = Some a ∧
    heap st' !! a = Some obj ∧
    get_window obj = Some window ∧ get_service obj = bus ∧
    get_launched obj = true.
Proof.
  intros Hwf Hfresh. destruct bus as [service|].
  - destruct (_activities st !! service_id service) as [a|] eqn:Hkey.
    + destruct (wf_tracked _ Hwf _ _ Hkey) as (obj0 & Hobj0 & _).
      rewrite (_add_activity_existing _ _ a obj0) by done. intros [= <-].
      exists a, (set_window window (set_service service obj0)).
      split_and!; try done.
      * unfold bound_existing.
        change (_get_activity_by_xid ?x (log ?e ?s))
          with (_get_activity_by_xid x s).
        by apply (_get_activity_by_xid_updated _ (service_id service)).
      * simpl. apply list_lookup_insert_eq. by eapply lookup_lt_Some.
    + destruct (get_bundle (service_type service)) as [bundle|] eqn:Hbundle.
      * rewrite (_add_activity_recovered _ _ bundle) by done. intros [= <-].
        eexists (length (heap st)), _. split_and!.
        -- unfold bound_recovered.
           change (_get_activity_by_xid ?x (log ?e ?s))
             with (_get_activity_by_xid x s).
           by apply (_get_activity_by_xid_registered _ _
                       (set_window window
                          (set_service service
                             (new_HomeActivity bundle (service_id service)
                                (clock st))))).
        -- simpl. by rewrite lookup_app_r, Nat.sub_diag.
        -- done.
        -- done.
        -- done.
      * by rewrite _add_activity_missing_bundle.
  - change (_add_activity window None st) with (_add_window window st).
    rewrite _add_window_eq. intros [= <-].
    eexists (length (heap st)), _. split_and!.
    + unfold added_window.
      change (_get_activity_by_xid ?x (log ?e ?s))
        with (_get_activity_by_xid x s).
      by apply (_get_activity_by_xid_registered _ _
                  (new_HomeRawWindow window (clock st))).
    + simpl. by rewrite lookup_app_r, Nat.sub_diag.
    + done.
    + done.
    + done.
Qed.

(** X8.  After a window-open callback that did not raise, for a normal
    window no record held before, [_get_activity_by_xid] finds a launched
    object holding exactly that window, with the service the bus gave (none
    for a raw window); an active-window change to the window then gives
    it the focus. *)
Theorem window_opened_then_resolved st window bus :
  reachable st →
  window_type window = WINDOW_NORMAL →
  _get_activity_by_xid (window_xid window) st = None →
  (_window_opened_cb window bus st).1 = inr () →
  let st' := step st (window_opened window bus) in
  ∃ a obj,
    _get_activity_by_xid (window_xid window) st' = Some a ∧
    heap st' !! a = Some obj ∧
    get_window obj = Some window ∧ get_service obj = bus ∧
    get_launched obj = true ∧
    _current_activity (step st' (active_window_changed (Some window))) = Some a.
Proof.
  intros Hwf%reachable_wf Hnormal Hfresh Hok st'.
  assert (wf st') as Hwf' by by apply step_wf.
  assert (_add_activity window bus st = (inr (), st')) as Hadd.
  { subst st'. unfold step, handle, _window_opened_cb in *.
    rewrite decide_True in Hok |- * by done.
    by destruct (_add_activity window bus st) as [[x|[]] s]. }
  destruct (_add_activity_resolves _ _ _ _ Hwf Hfresh Hadd)
    as (a & obj & Hfind & Hobj & Hwindow & Hservice & Hlaunched).
  exists a, obj. split_and!; try done.
  unfold step at 1.
  change (handle (active_window_changed (Some window)))
    with (_active_window_changed_cb (Some window)).
  by rewrite (_active_window_changed_cb_found_eq _ _ a).
Qed.

End Resolution.

(** ** Indexing *)

Section Indexing.
Context `{!Environment}.

Lemma length_ordered st : length (_get_ordered_activities st) = __len__ st.
Proof.
  unfold _get_ordered_activities, __len__, values.
  by rewrite sort_by_Permutation, length_fmap, length_map_to_list.
Qed.

Lemma elem_of_ordered st a :
  a ∈ _get_ordered_activities st ↔ ∃ key, _activities st !! key = Some a.
Proof.
  unfold _get_ordered_activities. rewrite sort_by_Permutation.
  apply elem_of_values.
Qed.

Lemma __getitem___spec st i :
  __getitem__ st i =
    let n := Z.of_nat (__len__ st) in
    if decide (- n ≤ i < n)%Z
    then match _get_ordered_activities st !! Z.to_nat (i `mod` n) with
         | Some a => inr a
         | None => inl IndexError
         end
    else inl IndexError.
Proof.
  unfold __getitem__. rewrite length_ordered. cbv zeta.
  pose proof (length_ordered st) as Hlen.
  set (n := Z.of_nat (__len__ st)) in *.
  destruct (decide (i < 0)%Z) as [Hneg|Hpos].
  - destruct (decide (0 ≤ i + n)%Z) as [Hin|Hout].
    + rewrite decide_True by lia.
      replace (i `mod` n)%Z with (i + n)%Z; [done|].
      apply Z.mod_unique with (-1)%Z; lia.
    + by rewrite decide_False by lia.
  - rewrite decide_True by lia.
    destruct (decide (i < n)%Z) as [Hin|Hout].
    + rewrite decide_True by lia. by rewrite Z.mod_small by lia.
    + rewrite decide_False by lia.
      rewrite lookup_ge_None_2; [done|]. rewrite Hlen. lia.
Qed.

(** X10.  In a reachable state [index] and the ordered traversal are
    inverse to each other, [index] raises [ValueError] exactly for objects
    that are not registered, [__getitem__] raises [IndexError] exactly for
    indices outside [-len, len), and [index] of what [__getitem__] returns
    is the index counted from the front. *)
Theorem index_getitem_bounds st :
  reachable st →
  (∀ a i, index st a = inr i ↔ __iter__ st !! i = Some a) ∧
  (∀ a, index st a = inl (ValueError "not in list") ↔
        ∀ key, _activities st !! key ≠ Some a) ∧
  (∀ i, __getitem__ st i = inl IndexError ↔
        ¬ (- Z.of_nat (__len__ st) ≤ i < Z.of_nat (__len__ st))%Z) ∧
  (∀ i a, __getitem__ st i = inr a →
          index st a = inr (Z.to_nat (i `mod` Z.of_nat (__len__ st)))).
Proof.
  intros Hwf%reachable_wf.
  assert (NoDup (_get_ordered_activities st)) as Hnodup.
  { unfold _get_ordered_activities. rewrite sort_by_Permutation.
    by apply NoDup_values. }
  assert (∀ a i, index st a = inr i ↔ __iter__ st !! i = Some a) as Hindex.
  { intros a i. unfold index, __iter__. split.
    - destruct (list_find _ _) as [[j b]|] eqn:Hfind; [|done].
      intros [= ->]. by apply list_find_Some in Hfind as (? & -> & _).
    - intros Hi.
      assert (list_find (λ b, b = a) (_get_ordered_activities st) = Some (i, a))
        as ->; [|done].
      apply list_find_Some. split_and!; [done|done|].
      intros j b Hj Hji ->.
      pose proof (NoDup_lookup _ _ _ _ Hnodup Hi Hj). lia. }
  split_and!; [done| | |].
  - intros a. unfold index. split.
    + destruct (list_find _ _) as [[j b]|] eqn:Hfind; [done|]. intros _.
      apply list_find_None in Hfind. rewrite Forall_forall in Hfind.
      intros key Hkey. apply (Hfind a); [|done].
      apply elem_of_ordered. eauto.
    + intros Hnone.
      destruct (list_find _ _) as [[j b]|] eqn:Hfind; [|done].
      apply list_find_Some in Hfind as (Hj & -> & _).
      apply list_elem_of_lookup_2, elem_of_ordered in Hj as [key Hkey].
      by destruct (Hnone key).
  - intros i. rewrite __getitem___spec. cbv zeta.
    pose proof (length_ordered st) as Hlen.
    destruct (decide _) as [Hin|Hout]; [|done].
    split; [|done].
    destruct (lookup_lt_is_Some_2 (_get_ordered_activities st)
                (Z.to_nat (i `mod` Z.of_nat (__len__ st)))) as [a Ha].
    { rewrite Hlen. pose proof (Z.mod_pos_bound i (Z.of_nat (__len__ st))). lia. }
    by rewrite Ha.
  - intros i a. rewrite __getitem___spec. cbv zeta.
    destruct (decide _) as [Hin|Hout]; [|done].
    destruct (_ !! _) as [b|] eqn:Hb; [|done]. intros [= ->].
    by apply Hindex.
Qed.

End Indexing.

(** ** Launch followed by failure or expiry *)

Section Compositions.
Context `{!Environment}.

Lemma step_launch st activity_id service_name bundle :
  get_bundle service_name = Some bundle →
  step st (launch activity_id service_name) =
    log (Emit (activity_launched (length (heap st))))
      (store (<[activity_id := length (heap st)]> (_activities st))
         (allocate (λ now, connect_launch_timeout
                             (new_HomeActivity bundle activity_id now)) st)).
Proof.
  intros Hbundle. unfold step. simpl. unfold notify_activity_launch.
  by rewrite Hbundle.
Qed.

Lemma focus_not_fresh st :
  wf st →
  (if decide (Some (length (heap st)) = _current_activity st)
   then None else _current_activity st) = _current_activity st.
Proof.
  intros Hwf. case_decide as Heq; [|done].
  pose proof (wf_current_lt _ Hwf _ (eq_sym Heq)). lia.
Qed.

(** X14.  A launch notification followed by the launch failure of the
    same id leaves no record under the id and the focus pointer unchanged;
    the signals are [activity-launched] and [activity-removed] for the new
    object only: a record the id designated before is dropped without a
    signal. *)
Theorem launch_then_failed st activity_id service_name bundle :
  reachable st →
  get_bundle service_name = Some bundle →
  let st' := run st [launch activity_id service_name;
                     launch_failed activity_id] in
  _activities st' = delete activity_id (_activities st) ∧
  _current_activity st' = _current_activity st ∧
  trace st' = trace st ++ [Emit (activity_launched (length (heap st)));
                           LogDebug (log_launch_failed activity_id);
                           Emit (activity_removed (length (heap st)))].
Proof.
  intros Hst Hbundle st'.
  pose proof (reachable_wf _ (reachable_step _ (launch activity_id service_name) Hst))
    as Hwf1.
  pose proof (reachable_wf _ Hst) as Hwf.
  assert (st' =
          store (delete activity_id (_activities st))
            (log (Emit (activity_removed (length (heap st))))
               (focus (_current_activity st)
                  (log (LogDebug (log_launch_failed activity_id))
                     (step st (launch activity_id service_name)))))) as Hst'.
  { subst st'. simpl. unfold step at 1. simpl.
    rewrite (notify_activity_launch_failed_eq _ (length (heap st)));
      [|done|rewrite (step_launch _ _ _ bundle) by done; simpl;
               by rewrite lookup_insert_eq].
    rewrite (step_launch _ _ _ bundle) by done.
    cbn [fst snd _activities _current_activity trace heap log store focus
         allocate].
    by rewrite delete_insert_eq, (focus_not_fresh _ Hwf). }
  rewrite Hst'. rewrite (step_launch _ _ _ bundle) by done. simpl.
  split_and!; [done|done|]. by rewrite <-!app_assoc.
Qed.

(** X15.  A launch notification followed by the timeout of the new object
    leaves no record under the id, emits [activity-launched] and then one
    [activity-removed] for it, and a further timeout of the object changes
    nothing. *)
Theorem launch_then_timeout st activity_id service_name bundle :
  reachable st →
  get_bundle service_name = Some bundle →
  let st' := run st [launch activity_id service_name;
                     launch_timeout (length (heap st))] in
  _activities st' = delete activity_id (_activities st) ∧
  _current_activity st' = _current_activity st ∧
  trace st' = trace st ++ [Emit (activity_launched (length (heap st)));
                           Emit (activity_removed (length (heap st)))] ∧
  step st' (launch_timeout (length (heap st))) = st'.
Proof.
  intros Hst Hbundle st'.
  pose proof (reachable_wf _ Hst) as Hwf.
  assert (st' =
          store (delete activity_id (_activities st))
            (log (Emit (activity_removed (length (heap st))))
               (focus (_current_activity st)
                  (step st (launch activity_id service_name))))) as Hst'.
  { subst st'. simpl. rewrite step_launch_timeout.
    rewrite (step_launch _ _ _ bundle) by done. simpl.
    rewrite lookup_app_r, Nat.sub_diag by done. simpl.
    rewrite lookup_insert_eq, bool_decide_eq_true_2 by done.
    by rewrite delete_insert_eq, (focus_not_fresh _ Hwf). }
  rewrite Hst'. rewrite (step_launch _ _ _ bundle) by done. simpl.
  split_and!; [done|done|by rewrite <-!app_assoc|].
  rewrite step_launch_timeout. simpl.
  rewrite lookup_app_r, Nat.sub_diag by done. simpl.
  by rewrite lookup_delete_eq, bool_decide_eq_false_2 by (by intros [? [=]]).
Qed.

End Compositions.

(** ** The focused object *)

Section Focus.
Context `{!Environment}.

Lemma advances_refl st : advances st st.
Proof. split; eauto. Qed.

Lemma advances_trans st1 st2 st3 :
  advances st1 st2 → advances st2 st3 → advances st1 st3.
Proof.
  intros [L12 F12] [L23 F23]. split.
  - intros a obj Hobj Hlaunched.
    destruct (L12 _ _ Hobj Hlaunched) as (obj2 & Hobj2 & Hlaunched2). eauto.
  - destruct F23 as [Heq|[Hnone|Hset]]; [|by right; left|by right; right].
    rewrite Heq. destruct F12 as [?|[?|(a & obj & Ha & Hobj & Hlaunched)]];
      [by left|by right; left|].
    right; right. destruct (L23 _ _ Hobj Hlaunched) as (obj3 & ? & ?).
    exists a, obj3. done.
Qed.

Lemma advances_frame st st' :
  heap st' = heap st →
  (_current_activity st' = _current_activity st ∨ _current_activity st' = None) →
  advances st st'.
Proof.
  intros Hheap Hfocus. split.
  - intros a obj. rewrite Hheap. eauto.
  - destruct Hfocus; [by left|by right; left].
Qed.

Lemma focused_launched_advances st st' :
  advances st st' → focused_launched st → focused_launched st'.
Proof.
  intros [L F] Hfocus a Ha.
  destruct F as [Heq|[Hnone|(b & obj & Hb & Hobj & Hlaunched)]].
  - rewrite Heq in Ha. destruct (Hfocus _ Ha) as (obj & Hobj & Hlaunched). eauto.
  - congruence.
  - assert (b = a) as -> by congruence. eauto.
Qed.

Lemma bind_advances {A B} (m : M A) (k : A → M B) st :
  advances st (m st).2 →
  (∀ x st', m st = (inr x, st') → advances st' (k x st').2) →
  advances st (bind m k st).2.
Proof.
  unfold bind. destruct (m st) as [[e|x] st'] eqn:Hm; simpl; [done|].
  intros H1 H2. eapply advances_trans; eauto.
Qed.

Lemma _notify_activity_activation_advances old new st :
  advances st (_notify_activity_activation old new st).2.
Proof.
  destruct (_notify_activity_activation_frame old new st) as (? & _ & _ & ?).
  apply advances_frame; eauto.
Qed.

Lemma _internal_remove_activity_advances a st :
  advances st (_internal_remove_activity a st).2.
Proof.
  unfold _internal_remove_activity. run_monad.
  repeat (case_match; simplify_eq/=); apply advances_frame; eauto.
Qed.

Lemma _add_activity_advances window bus st :
  wf st → advances st (_add_activity window bus st).2.
Proof.
  intros Hwf.
  assert (∀ mk k,
            advances st
              (log (Emit (activity_added (length (heap st))))
                 (store (<[k := length (heap st)]> (_activities st))
                    (allocate mk st)))) as Hgrow.
  { intros mk k. split; [|by left]. intros a obj Hobj Hlaunched.
    exists obj. split; [|done]. simpl. by apply lookup_app_l_Some. }
  destruct bus as [service|].
  - destruct (_activities st !! service_id service) as [a|] eqn:Hkey.
    + destruct (wf_tracked _ Hwf _ _ Hkey) as (obj0 & Hobj0 & _).
      rewrite (_add_activity_existing _ _ a obj0) by done.
      split; [|by left]. intros b obj Hobj Hlaunched. simpl.
      destruct (decide (b = a)) as [->|Hne].
      * eexists. rewrite list_lookup_insert_eq by (by eapply lookup_lt_Some).
        done.
      * exists obj. by rewrite list_lookup_insert_ne.
    + destruct (get_bundle (service_type service)) as [bundle|] eqn:Hbundle.
      * rewrite (_add_activity_recovered _ _ bundle) by done. apply Hgrow.
      * rewrite _add_activity_missing_bundle by done. apply advances_refl.
  - change (_add_activity window None st) with (_add_window window st).
    rewrite _add_window_eq. apply Hgrow.
Qed.

Lemma _window_closed_cb_advances window st :
  advances st (_window_closed_cb window st).2.
Proof.
  unfold _window_closed_cb. apply bind_advances.
  - case_decide; [|apply advances_refl].
    unfold _remove_activity. apply bind_advances; [apply advances_refl|].
    intros ? ? [= <- <-].
    case_match; [apply _internal_remove_activity_advances|].
    apply advances_frame; eauto.
  - intros _ st' _. apply bind_advances; [apply advances_refl|].
    intros ? ? [= <- <-]. case_decide; [|apply advances_refl].
    apply bind_advances; [apply advances_frame; eauto|]. intros _ st'' _.
    apply _notify_activity_activation_advances.
Qed.

Lemma _active_window_changed_cb_advances active st :
  wf st → advances st (_active_window_changed_cb active st).2.
Proof.
  intros Hwf. destruct active as [window|].
  - destruct (decide (window_type window = WINDOW_NORMAL)) as [Hnormal|Hother].
    + destruct (_get_activity_by_xid (window_xid window) st) as [a|] eqn:Hfind.
      * rewrite (_active_window_changed_cb_found_eq _ _ a) by done.
        destruct (_get_activity_by_xid_tracked _ _ _ Hwf Hfind)
          as (obj & Hobj & _ & Hlaunched & _).
        destruct (logs_frame
                    (activation_notify st (_current_activity st) (Some a)) st)
          as (Hheap & _).
        split; simpl; rewrite Hheap; eauto 10.
      * rewrite _active_window_changed_cb_unresolved_eq by done.
        destruct (logs_frame (deactivation st (_current_activity st)) st)
          as (Hheap & _).
        apply advances_frame; simpl; eauto.
    + unfold _active_window_changed_cb. rewrite decide_True by done.
      apply advances_refl.
  - rewrite _active_window_changed_cb_None_eq by done.
    match goal with |- context [logs ?es ?s] =>
      destruct (logs_frame es s) as (Hheap & _ & _ & Hcur) end.
    apply advances_frame; simpl; eauto.
Qed.

Lemma _dbus_name_owner_changed_cb_advances name old new bus st :
  wf st → advances st (_dbus_name_owner_changed_cb name old new bus st).2.
Proof.
  intros Hwf. unfold _dbus_name_owner_changed_cb.
  destruct (_ && _ && _); [|apply advances_refl].
  destruct (negb (isdigit _)); [apply advances_refl|].
  unfold bind at 1, tell. unfold bind at 1, result. set (st0 := log _ st).
  assert (wf st0) as Hwf0 by by apply wf_log.
  assert (advances st st0) as H0 by (apply advances_frame; eauto).
  eapply advances_trans; [exact H0|].
  destruct (int _) as [x|xid]; [apply advances_refl|]. unfold bind at 1, get.
  destruct (_get_activity_by_xid xid st0) as [act|] eqn:Hfind;
    [|apply advances_refl].
  destruct (_get_activity_by_xid_tracked _ _ _ Hwf0 Hfind)
    as (obj & Hobj & Hkey & Hlaunched & Hxid).
  unfold bind at 1, deref. rewrite Hobj.
  destruct (class_of obj); [|apply advances_refl].
  unfold bind at 1, tell. unfold bind at 1.
  pose proof (_internal_remove_activity_advances act
                (log (LogDebug (log_removing_bogus_raw_activity
                                  (get_activity_id obj) xid)) st0)) as Hrem.
  rewrite (_internal_remove_activity_eq _ obj) in Hrem |- *
    by (by rewrite ?Hkey).
  set (st1 := store _ _) in *.
  assert (advances st0 st1) as H1.
  { eapply advances_trans; [|exact Hrem]. apply advances_frame; eauto. }
  eapply advances_trans; [exact H1|].
  destruct (get_window obj) as [window|]; [|apply advances_refl].
  apply _add_activity_advances.
  apply wf_store_delete'; [|done]. apply wf_log, wf_focus; [by apply wf_log|].
  simpl. intros y. case_decide; [done|]. apply (wf_current_lt _ Hwf).
Qed.

Lemma step_advances st e : wf st → advances st (step st e).
Proof.
  intros Hwf. unfold step. destruct e; simpl.
  - unfold _window_opened_cb. case_decide; [|apply advances_refl].
    by apply _add_activity_advances.
  - apply _window_closed_cb_advances.
  - by apply _active_window_changed_cb_advances.
  - by apply _dbus_name_owner_changed_cb_advances.
  - unfold _launch_timeout_signal. repeat case_match; try apply advances_refl.
    unfold _activity_launch_timeout_cb.
    apply bind_advances; [unfold deref; case_match; apply advances_refl|].
    intros obj st' _. apply bind_advances; [apply advances_refl|].
    intros ? ? [= <- <-].
    case_decide; [apply _internal_remove_activity_advances|apply advances_refl].
  - unfold notify_activity_launch.
    destruct (get_bundle service_name); [|apply advances_refl].
    split; [|by left]. intros a obj Hobj Hlaunched.
    exists obj. split; [|done]. simpl. by apply lookup_app_l_Some.
  - unfold notify_activity_launch_failed.
    apply bind_advances; [apply advances_refl|]. intros ? ? [= <- <-].
    case_match; [|apply advances_frame; eauto].
    apply bind_advances; [apply advances_frame; eauto|]. intros _ st' _.
    apply _internal_remove_activity_advances.
Qed.

(** X12.  In every reachable state the object [get_current_activity]
    returns, if any, is launched and has a window. *)
Theorem focused_activity_is_launched st :
  reachable st →
  ∀ a, get_current_activity st = Some a →
       ∃ obj, heap st !! a = Some obj ∧
              get_launched obj = true ∧ is_Some (get_window obj).
Proof.
  intros Hst.
  assert (focused_launched st) as Hfocus.
  { induction Hst as [|st e Hst IH]; [by intros a|].
    eapply focused_launched_advances; [|exact IH].
    by apply step_advances, reachable_wf. }
  intros a Ha. destruct (Hfocus a Ha) as (obj & Hobj & Hlaunched).
  exists obj. split_and!; [done|done|].
  destruct (wf_heap _ (reachable_wf _ Hst) _ _ Hobj) as (_ & Hwindow & _).
  by apply Hwindow.
Qed.

End Focus.

(** ** Promotion of a raw window *)

Section Promotion.
Context `{!Environment}.

Lemma _dbus_name_owner_changed_cb_promotes
    name old new bus st xid a obj window :
  accepts_name name old new = true →
  name_xid name = inr xid →
  _get_activity_by_xid xid st = Some a →
  heap st !! a = Some obj →
  class_of obj = HomeRawWindow →
  get_window obj = Some window →
  is_Some (_activities st !! get_activity_id obj) →
  _dbus_name_owner_changed_cb name old new bus st =
    _add_activity window bus
      (store (delete (get_activity_id obj) (_activities st))
         (log (Emit (activity_removed a))
            (focus (if decide (Some a = _current_activity st)
                    then None else _current_activity st)
               (log (LogDebug (log_removing_bogus_raw_activity
                                 (get_activity_id obj) xid))
                  (log (LogDebug (log_instance_launch_detected name)) st))))).
Proof.
  intros Haccept Hint Hfind Hobj Hclass Hwindow Hkey.
  unfold accepts_name in Haccept.
  apply andb_true_iff in Haccept as [Hguard Hdigit].
  unfold _dbus_name_owner_changed_cb, name_xid in *.
  rewrite Hguard, Hdigit, Hint. simpl in *.
  unfold bind at 1, tell. unfold bind at 1, result. unfold bind at 1, get.
  change (_get_activity_by_xid ?x (log ?e st)) with (_get_activity_by_xid x st).
  rewrite Hfind. unfold bind at 1, deref. simpl. rewrite Hobj, Hclass.
  unfold bind at 1, tell. unfold bind at 1.
  rewrite (_internal_remove_activity_eq _ obj); simpl; [|done|done].
  by rewrite Hwindow.
Qed.

(** X16.  In a reachable state, when a name-owner change passes the guards
    and [_get_activity_by_xid] resolves the identifier read from the name
    to a [HomeRawWindow], the callback logs twice, removes that record
    (the focus pointer is cleared if it designated it, [activity-removed]
    is emitted) and runs [_add_activity] on the record's window, whose
    identifier is the one read from the name.  What follows depends on the
    bus lookup made there.  Without a service a new [HomeRawWindow] is
    registered for the window.  With a service whose id is still registered
    that object is bound in place, whatever the bundle registry holds.
    With a service whose id is free and whose type has a bundle a new
    [HomeActivity] is registered under the service's id.  With a service
    whose id is free and whose type has no bundle the callback raises
    [RuntimeError]; the removal is not undone, so no record is left for
    the window that the raw record held. *)
Theorem raw_window_promotion st name old new bus xid a obj :
  reachable st →
  accepts_name name old new = true →
  name_xid name = inr xid →
  _get_activity_by_xid xid st = Some a →
  heap st !! a = Some obj →
  class_of obj = HomeRawWindow →
  ∃ window,
    get_window obj = Some window ∧ window_xid window = xid ∧
    let r := _dbus_name_owner_changed_cb name old new bus st in
    let registry := delete (get_activity_id obj) (_activities st) in
    let removal :=
      [LogDebug (log_instance_launch_detected name);
       LogDebug (log_removing_bogus_raw_activity (get_activity_id obj) xid);
       Emit (activity_removed a)] in
    _current_activity r.2 =
      (if decide (_current_activity st = Some a)
       then None else _current_activity st) ∧
    match bus with
    | None =>
        r.1 = inr () ∧
        _activities r.2 =
          <[raw_activity_id window := length (heap st)]> registry ∧
        heap r.2 = heap st ++ [new_HomeRawWindow window (clock st)] ∧
        trace r.2 = trace st ++ removal
                      ++ [Emit (activity_added (length (heap st)))]
    | Some service =>
        match registry !! service_id service,
              get_bundle (service_type service) with
        | Some b, _ =>
            r.1 = inr () ∧
            _activities r.2 = registry ∧
            (∃ bound, heap st !! b = Some bound ∧
               heap r.2 =
                 <[b := set_window window (set_service service bound)]>
                   (heap st)) ∧
            trace r.2 = trace st ++ removal ++ [Emit (activity_added b)]
        | None, Some bundle =>
            r.1 = inr () ∧
            _activities r.2 =
              <[service_id service := length (heap st)]> registry ∧
            heap r.2 =
              heap st ++ [set_window window
                            (set_service service
                               (new_HomeActivity bundle (service_id service)
                                  (clock st)))] ∧
            trace r.2 = trace st ++ removal
                          ++ [Emit (activity_added (length (heap st)))]
        | None, None =>
            r.1 = inl (RuntimeError (service_type service)) ∧
            _activities r.2 = registry ∧
            heap r.2 = heap st ∧
            trace r.2 = trace st ++ removal
        end
    end.
Proof.
  intros Hwf%reachable_wf Haccept Hint Hfind Hobj Hclass.
  destruct (_get_activity_by_xid_tracked _ _ _ Hwf Hfind)
    as (obj' & Hobj' & Hkey & _ & Hxid).
  assert (obj' = obj) as -> by congruence.
  unfold get_xid in Hxid.
  destruct (get_window obj) as [window|] eqn:Hwindow; [|done].
  exists window. split; [done|]. split; [by injection Hxid|].
  intros r registry removal. subst r.
  rewrite (_dbus_name_owner_changed_cb_promotes _ _ _ _ _ xid a obj window)
    by (by rewrite ?Hkey).
  assert (∀ y : option nat,
            (if decide (Some a = _current_activity st) then None else y) =
            (if decide (_current_activity st = Some a) then None else y))
    as Hflip by (intros y; repeat case_decide; congruence).
  destruct bus as [service|].
  - destruct (registry !! service_id service) as [b|] eqn:Hb.
    + apply lookup_delete_Some in Hb as Hb'. destruct Hb' as [_ Hb'].
      destruct (wf_tracked _ Hwf _ _ Hb') as (bound & Hbound & _).
      rewrite (_add_activity_existing _ _ b bound) by done. simpl.
      split_and!; try done. { eauto. } by rewrite <-!app_assoc.
    + destruct (get_bundle (service_type service)) as [bundle|] eqn:Hbundle.
      * rewrite (_add_activity_recovered _ _ bundle) by done. simpl.
        split_and!; try done. by rewrite <-!app_assoc.
      * rewrite _add_activity_missing_bundle by done. simpl.
        split_and!; try done. by rewrite <-!app_assoc.
  - change (_add_activity window None) with (_add_window window).
    rewrite _add_window_eq. simpl.
    split_and!; try done. by rewrite <-!app_assoc.
Qed.

End Promotion.

(** ** Order of the signals *)

Section Audit.
Context `{!Environment}.

Lemma announced_app t d a : announced t a → announced (t ++ d) a.
Proof. unfold announced. rewrite !elem_of_app. tauto. Qed.

Lemma removals_announced_snoc t e :
  removals_announced t →
  (∀ a, e = Emit (activity_removed a) → announced t a) →
  removals_announced (t ++ [e]).
Proof.
  intros Ht He t1 t2 a Heq.
  destruct (decide (t2 = [])) as [->|Hne].
  - apply (app_inj_tail t t1) in Heq as [-> ->]. by apply He.
  - destruct (exists_last Hne) as (t2' & x & ->).
    change (t ++ [e] = t1 ++ (Emit (activity_removed a) :: t2') ++ [x]) in Heq.
    rewrite app_assoc in Heq. apply app_inj_tail in Heq as [-> ->].
    by eapply Ht.
Qed.

Lemma audited_init : audited init.
Proof.
  split; try done. intros t1 t2 a Heq. simpl in Heq. by destruct t1.
Qed.

Lemma audited_log e st :
  audited st →
  (∀ a, e = Emit (activity_removed a) → announced (trace st) a) →
  audited (log e st).
Proof.
  intros [H1 H2 H3] He. split; simpl.
  - intros key a Hkey. apply announced_app. eauto.
  - intros a obj Hobj Hc. apply announced_app. eauto.
  - by apply removals_announced_snoc.
Qed.

Lemma audited_logs es st :
  audited st → (∀ e a, e ∈ es → e ≠ Emit (activity_removed a)) →
  audited (logs es st).
Proof.
  revert st. induction es as [|e es IH]; intros st Hst Hes; [done|].
  simpl. apply IH.
  - apply audited_log; [done|]. intros a ->. by destruct (Hes _ a (list_elem_of_here _ _)).
  - intros e' a He'. apply Hes. by right.
Qed.

Lemma audited_focus c st : audited st → audited (focus c st).
Proof. by intros [H1 H2 H3]. Qed.

Lemma audited_store_delete key d st :
  audited st → d = _activities st → audited (store (delete key d) st).
Proof.
  intros [H1 H2 H3] ->. split; simpl; try done.
  intros key' a. rewrite lookup_delete. case_decide; [done|]. eauto.
Qed.

Lemma audited_update a obj obj' st :
  audited st → heap st !! a = Some obj →
  launch_timeout_connected obj' = launch_timeout_connected obj →
  audited (update a obj' st).
Proof.
  intros [H1 H2 H3] Hobj Hc. split; simpl; try done.
  intros b o Hb Hcb. destruct (decide (a = b)) as [->|Hne].
  - rewrite list_lookup_insert_eq in Hb by (by eapply lookup_lt_Some).
    simplify_eq. apply (H2 _ obj); congruence.
  - rewrite list_lookup_insert_ne in Hb by done. eauto.
Qed.

(** a fresh object is registered and announced at once *)
Lemma audited_register mk k signal st :
  audited st →
  signal = activity_added (length (heap st)) ∨
    signal = activity_launched (length (heap st)) →
  audited (log (Emit signal)
             (store (<[k := length (heap st)]> (_activities st))
                (allocate mk st))).
Proof.
  intros [H1 H2 H3] Hsignal.
  assert (announced (trace st ++ [Emit signal]) (length (heap st))) as Hnew.
  { unfold announced. rewrite !elem_of_app, !list_elem_of_singleton.
    destruct Hsignal as [->| ->]; eauto. }
  split; simpl.
  - intros key a. rewrite lookup_insert. case_decide.
    + by intros [= <-].
    + intros Hkey. apply announced_app. eauto.
  - intros a obj Hobj Hc.
    apply lookup_app_Some in Hobj as [Hobj|[Hlen Hobj]].
    + apply announced_app. eauto.
    + apply list_lookup_singleton_Some in Hobj as [Ha _].
      by replace a with (length (heap st)) by lia.
  - apply removals_announced_snoc; [done|].
    intros a [= ->]. by destruct Hsignal.
Qed.

Lemma deactivation_no_removal st old e a :
  e ∈ deactivation st old → e ≠ Emit (activity_removed a).
Proof.
  unfold deactivation. destruct (_ ≫= get_service); intros He ->;
    [by apply list_elem_of_singleton in He|by apply elem_of_nil in He].
Qed.

Lemma activation_notify_no_removal st old new e a :
  e ∈ activation_notify st old new → e ≠ Emit (activity_removed a).
Proof.
  unfold activation_notify, activation. case_decide.
  - intros He. by apply elem_of_nil in He.
  - rewrite elem_of_app. intros [He|He]; [by eapply deactivation_no_removal|].
    destruct (_ ≫= get_service); intros ->;
      [by apply list_elem_of_singleton in He|by apply elem_of_nil in He].
Qed.

Lemma _internal_remove_activity_audited a st :
  audited st → announced (trace st) a →
  audited (_internal_remove_activity a st).2.
Proof.
  intros Hst Ha. unfold _internal_remove_activity. run_monad.
  repeat (case_match; simplify_eq/=);
    repeat first
      [ apply audited_store_delete; [|reflexivity]
      | apply audited_log; [|by intros ? [= <-]]
      | apply audited_focus ];
    done.
Qed.

Lemma _add_activity_audited window bus st :
  wf st → audited st → audited (_add_activity window bus st).2.
Proof.
  intros Hwf Hst. destruct bus as [service|].
  - destruct (_activities st !! service_id service) as [a|] eqn:Hkey.
    + destruct (wf_tracked _ Hwf _ _ Hkey) as (obj0 & Hobj0 & _).
      rewrite (_add_activity_existing _ _ a obj0) by done.
      apply audited_log; [|done]. by apply (audited_update _ obj0).
    + destruct (get_bundle (service_type service)) as [bundle|] eqn:Hbundle.
      * rewrite (_add_activity_recovered _ _ bundle) by done.
        apply audited_register; eauto.
      * by rewrite _add_activity_missing_bundle.
  - change (_add_activity window None st) with (_add_window window st).
    rewrite _add_window_eq. apply audited_register; eauto.
Qed.

Lemma tracked_announced st xid a :
  audited st → _get_activity_by_xid xid st = Some a → announced (trace st) a.
Proof.
  intros Hst Hfind.
  apply _get_activity_by_xid_Some in Hfind as [[key Hkey] _].
  by apply (audited_tracked _ Hst key).
Qed.

Lemma audited_closed_tail st :
  audited st →
  audited (if decide (_activities st = ∅)
           then logs (deactivation st (_current_activity st))
                  (log (Emit (active_activity_changed None)) st)
           else st).
Proof.
  intros Hst. case_decide; [|done].
  apply audited_logs; [|intros; by eapply deactivation_no_removal].
  by apply audited_log.
Qed.

Lemma step_audited st e : wf st → audited st → audited (step st e).
Proof.
  intros Hwf Hst. unfold step. destruct e; simpl.
  - unfold _window_opened_cb. case_decide; [|done].
    by apply _add_activity_audited.
  - destruct (decide (window_type window = WINDOW_NORMAL)) as [Hnormal|Hother].
    + destruct (_get_activity_by_xid (window_xid window) st) as [a|] eqn:Hfind.
      * pose proof (_internal_remove_activity_audited a st Hst
                      (tracked_announced _ _ _ Hst Hfind)) as Hst1.
        pose proof (_internal_remove_activity_wf a st Hwf) as Hwf1.
        destruct (_remove_activity_found_eq _ _ _ Hwf Hfind)
          as (obj & Hobj & Hkey & Heq).
        rewrite (_remove_activity_found _ a) in Heq by done.
        rewrite Heq in Hst1, Hwf1.
        erewrite _window_closed_cb_tail; [| |exact Hwf1].
        2:{ rewrite decide_True by done.
            by rewrite (_remove_activity_found _ a), Heq. }
        cbn [fst snd]. by apply audited_closed_tail.
      * erewrite _window_closed_cb_tail; [| |by apply wf_log].
        2:{ rewrite decide_True by done. by apply _remove_activity_missing. }
        cbn [fst snd]. apply audited_closed_tail. by apply audited_log.
    + erewrite _window_closed_cb_tail; [| |exact Hwf].
      2:{ by rewrite decide_False. }
      cbn [fst snd]. by apply audited_closed_tail.
  - destruct active as [window|].
    + destruct (decide (window_type window = WINDOW_NORMAL)) as [Hnormal|Hother].
      * destruct (_get_activity_by_xid (window_xid window) st) as [a|] eqn:Hfind.
        -- rewrite (_active_window_changed_cb_found_eq _ _ a) by done. simpl.
           apply audited_log; [|done]. apply audited_focus.
           apply audited_logs; [done|].
           intros; by eapply activation_notify_no_removal.
        -- rewrite _active_window_changed_cb_unresolved_eq by done. simpl.
           apply audited_log; [|done]. apply audited_log; [|done].
           apply audited_focus.
           apply audited_logs; [done|].
           intros; by eapply deactivation_no_removal.
      * unfold _active_window_changed_cb. by rewrite decide_True.
    + rewrite _active_window_changed_cb_None_eq by done. simpl.
      apply audited_logs; [|intros; by eapply deactivation_no_removal].
      by apply audited_log.
  - unfold _dbus_name_owner_changed_cb.
    destruct (_ && _ && _); [|done].
    destruct (negb (isdigit _)); [done|].
    unfold bind at 1, tell. unfold bind at 1, result. set (st0 := log _ st).
    assert (wf st0) as Hwf0 by by apply wf_log.
    assert (audited st0) as Hst0 by by apply audited_log.
    destruct (int _) as [x|xid]; [exact Hst0|]. unfold bind at 1, get.
    destruct (_get_activity_by_xid xid st0) as [act|] eqn:Hfind; [|done].
    destruct (_get_activity_by_xid_tracked _ _ _ Hwf0 Hfind)
      as (obj & Hobj & Hkey & Hlaunched & Hxid).
    unfold bind at 1, deref. rewrite Hobj.
    destruct (class_of obj); [|done].
    unfold bind at 1, tell. unfold bind at 1.
    set (st0' := log _ st0).
    pose proof (_internal_remove_activity_audited act st0') as Hst1.
    pose proof (_internal_remove_activity_wf act st0') as Hwf1.
    rewrite (_internal_remove_activity_eq _ obj) in Hst1, Hwf1 |- *
      by (by rewrite ?Hkey).
    destruct (get_window obj) as [window|].
    + apply _add_activity_audited.
      * apply Hwf1. by apply wf_log.
      * apply Hst1; [by apply audited_log|].
        apply announced_app. by eapply tracked_announced.
    + apply Hst1; [by apply audited_log|].
      apply announced_app. by eapply tracked_announced.
  - unfold _launch_timeout_signal.
    destruct (heap st !! activity) as [obj|] eqn:Hobj; [|done].
    destruct (launch_timeout_connected obj) eqn:Hconnected; [|done].
    rewrite (_activity_launch_timeout_cb_eq _ obj) by done.
    case_decide; [|done].
    apply _internal_remove_activity_audited; [done|].
    by apply (audited_connected _ Hst _ obj).
  - change (audited (step st (launch activity_id service_name))).
    destruct (get_bundle service_name) as [bundle|] eqn:Hbundle.
    + rewrite (step_launch _ _ _ bundle) by done.
      apply audited_register; eauto.
    + unfold step. simpl. unfold notify_activity_launch. by rewrite Hbundle.
  - destruct (_activities st !! activity_id) as [a|] eqn:Hkey.
    + unfold notify_activity_launch_failed. unfold bind at 1, get.
      rewrite Hkey. unfold bind at 1, tell.
      apply _internal_remove_activity_audited; [by apply audited_log|].
      apply announced_app. by apply (audited_tracked _ Hst activity_id).
    + rewrite notify_activity_launch_failed_missing by done.
      by apply audited_log.
Qed.

(** X17.  In the trace of every reachable state each [activity-removed]
    signal comes after an [activity-added] or [activity-launched] signal
    for the same object. *)
Theorem removals_follow_announcements st t1 t2 a :
  reachable st →
  trace st = t1 ++ Emit (activity_removed a) :: t2 →
  Emit (activity_added a) ∈ t1 ∨ Emit (activity_launched a) ∈ t1.
Proof.
  intros Hst. revert t1 t2 a.
  assert (audited st) as Haudited.
  { induction Hst as [|st e Hst IH]; [apply audited_init|].
    apply step_audited; [by apply reachable_wf|exact IH]. }
  apply Haudited.
Qed.

End Audit.

(** ** The theorems at work, and the inputs that refute the claims as stated *)

Section Examples.
Local Existing Instance example_env.

Lemma launch_timeout_removes_registered_witness :
  heap bound_act1 !! 0 = Some act1_bound ∧
  is_Some (_activities bound_act1 !! get_activity_id act1_bound) ∧
  trace (_activity_launch_timeout_cb 0 bound_act1).2 =
    trace bound_act1 ++ [Emit (activity_removed 0)].
Proof.
  assert (heap bound_act1 !! 0 = Some act1_bound) as Hobj by reflexivity.
  assert (is_Some (_activities bound_act1 !! get_activity_id act1_bound))
    as Hkey by (exists 0; reflexivity).
  split_and!; [exact Hobj|exact Hkey|].
  apply (proj2 (launch_timeout_removes_registered bound_act1 0 act1_bound Hobj) Hkey).
Defined.

Lemma launch_timeout_after_binding :
  lookup_activity bound_act1 "act1" = Some act1_bound ∧
  get_window act1_bound = Some W1 ∧
  get_service act1_bound = Some S1 ∧
  lookup_activity (_activity_launch_timeout_cb 0 bound_act1).2 "act1" = None ∧
  trace (_activity_launch_timeout_cb 0 bound_act1).2 =
    trace bound_act1 ++ [Emit (activity_removed 0)].
Proof. by vm_compute. Qed.

Lemma window_closed_focused_no_deactivation :
  _current_activity focused_act1 = Some 0 ∧
  get_service <$> lookup_activity focused_act1 "act1" = Some (Some S1) ∧
  _get_activity_by_xid (window_xid W1) focused_act1 = Some 0 ∧
  _activities (step focused_act1 (window_closed W1)) = ∅ ∧
  trace (step focused_act1 (window_closed W1)) =
    trace focused_act1 ++ [Emit (activity_removed 0);
                           Emit (active_activity_changed None)] ∧
  SetActive S1 false ∉ trace (step focused_act1 (window_closed W1)).
Proof.
  split_and!; try by vm_compute.
  apply (bool_decide_unpack _). by vm_compute.
Qed.

Lemma window_closed_dock_emits :
  window_type dock ≠ WINDOW_NORMAL ∧
  trace (step init (window_closed dock)) =
    trace init ++ [Emit (active_activity_changed None)].
Proof. split; [done|by vm_compute]. Qed.

Lemma stale_window_shared : ¬ unique_windows stale_window.
Proof.
  intros Huniq.
  assert ("rawwindow42" = "act1") as Heq; [|done].
  apply (Huniq "rawwindow42" "act1"
           (new_HomeRawWindow W1 0)
           (set_window W1 (set_service S1
              (new_HomeActivity (BundleMetadata "Chat") "act1" 1)))
           42%N); by vm_compute.
Qed.


Lemma reachable_run_init es : reachable (run init es).
Proof. apply reachable_run, reachable_init. Qed.


Lemma window_closed_last_record_witness :
  reachable focused_act1 ∧
  _get_activity_by_xid (window_xid W1) focused_act1 = Some 0 ∧
  _activities (_window_closed_cb W1 focused_act1).2 = ∅ ∧
  trace (_window_closed_cb W1 focused_act1).2 =
    trace focused_act1 ++ [Emit (activity_removed 0);
                           Emit (active_activity_changed None)].
Proof.
  assert (_get_activity_by_xid (window_xid W1) focused_act1 = Some 0) as Hfind
    by reflexivity.
  assert (_activities (_window_closed_cb W1 focused_act1).2 = ∅) as Hempty
    by reflexivity.
  split_and!; [apply reachable_run_init|exact Hfind|exact Hempty|].
  apply (window_closed_last_record focused_act1 W1 0
           (reachable_run_init _) eq_refl Hfind Hempty).
  reflexivity.
Defined.

Lemma window_closed_not_normal_witness :
  reachable init ∧ window_type dock ≠ WINDOW_NORMAL ∧
  _activities (_window_closed_cb dock init).2 = _activities init.
Proof.
  assert (window_type dock ≠ WINDOW_NORMAL) as Hdock by discriminate.
  split_and!; [apply reachable_init|exact Hdock|].
  apply (window_closed_not_normal init dock reachable_init Hdock).
Defined.

Lemma ordered_views_witness :
  reachable three_records ∧
  length (__iter__ three_records) = __len__ three_records.
Proof.
  split; [apply reachable_run_init|].
  apply (ordered_views three_records (reachable_run_init _)).
Defined.

Lemma notify_activity_launch_outcome_witness :
  get_bundle "Chat" = Some (BundleMetadata "Chat") ∧
  trace (notify_activity_launch "act1" "Chat" init).2 =
    trace init ++ [Emit (activity_launched (length (heap init)))].
Proof.
  assert (get_bundle "Chat" = Some (BundleMetadata "Chat")) as Hbundle
    by reflexivity.
  split; [exact Hbundle|].
  apply (proj2 (proj2 (notify_activity_launch_outcome init "act1" "Chat"))
           _ Hbundle).
Defined.

Lemma window_opened_recovered_witness :
  window_type W1 = WINDOW_NORMAL ∧
  _activities init !! service_id S1 = None ∧
  (_window_opened_cb W1 (Some S1) init).1 = inr ().
Proof.
  assert (_activities init !! service_id S1 = None) as Hkey by reflexivity.
  assert (get_bundle (service_type S1) = Some (BundleMetadata "Chat"))
    as Hbundle by reflexivity.
  split_and!; [reflexivity|exact Hkey|].
  apply (proj2 (proj2 (window_opened_recovered init W1 S1 eq_refl Hkey))
           (BundleMetadata "Chat") Hbundle).
Defined.

Lemma uniqueness_witness :
  fresh_windows init fresh_trace ∧ unique_windows (run init fresh_trace).
Proof.
  assert (fresh_windows init fresh_trace) as Hfresh
    by (repeat split; intros _; reflexivity).
  split; [exact Hfresh|].
  apply (proj2 (uniqueness fresh_trace) Hfresh).
Defined.

Lemma active_window_changed_unresolved_witness :
  reachable launching_act1 ∧
  _get_activity_by_xid (window_xid W1) launching_act1 = None ∧
  _current_activity (_active_window_changed_cb (Some W1) launching_act1).2 = None.
Proof.
  assert (_get_activity_by_xid (window_xid W1) launching_act1 = None) as Hnone
    by reflexivity.
  split_and!; [apply reachable_run_init|exact Hnone|].
  apply (active_window_changed_unresolved launching_act1 W1
           (reachable_run_init _) eq_refl (or_introl Hnone)).
Defined.

Lemma notify_activity_launch_replaces_witness :
  reachable launching_act1 ∧
  _activities launching_act1 !! "act1" = Some 0 ∧
  size (_activities (step launching_act1 (launch "act1" "Chat"))) =
    size (_activities launching_act1).
Proof.
  assert (_activities launching_act1 !! "act1" = Some 0) as Hold by reflexivity.
  assert (get_bundle "Chat" = Some (BundleMetadata "Chat")) as Hbundle
    by reflexivity.
  split_and!; [apply reachable_run_init|exact Hold|].
  destruct (notify_activity_launch_replaces launching_act1 "act1" "Chat" 0
              (BundleMetadata "Chat") (reachable_run_init _) Hold Hbundle)
    as (a & obj & _ & _ & _ & Hsize & _).
  exact Hsize.
Defined.

End Examples.

(** ** The further properties at work *)

Section MoreExamples.
Local Existing Instance example_env.

Lemma activation_notify_effects_witness :
  (∀ a, Some 0 = Some a → a < length (heap focused_act1)) ∧
  (∀ a, None = Some a → a < length (heap focused_act1)) ∧
  (_notify_activity_activation (Some 0) None focused_act1).1 = inr ().
Proof.
  assert (∀ a, Some 0 = Some a → a < length (heap focused_act1)) as Hold.
  { intros a [= <-]. vm_compute. lia. }
  assert (∀ a, @None nat = Some a → a < length (heap focused_act1)) as Hnew
    by (intros a; discriminate).
  split_and!; [exact Hold|exact Hnew|].
  apply (activation_notify_effects (Some 0) None focused_act1 Hold Hnew).
Defined.

Lemma launch_failed_outcome_witness :
  reachable launching_act1 ∧
  heap (notify_activity_launch_failed "act1" launching_act1).2
    = heap launching_act1.
Proof.
  split; [apply reachable_run_init|].
  apply (launch_failed_outcome launching_act1 "act1" (reachable_run_init _)).
Defined.

Lemma callbacks_raise_only_expected_witness :
  reachable init ∧
  (handle (name_owner_changed "org.laptop.Activity²" "" ":1.5" None) init).1
    = inl (ValueError "²") ∧
  expected_failure (name_owner_changed "org.laptop.Activity²" "" ":1.5" None)
    (ValueError "²").
Proof.
  assert ((handle (name_owner_changed "org.laptop.Activity²" "" ":1.5" None)
             init).1 = inl (ValueError "²")) as Hraise by reflexivity.
  split_and!; [apply reachable_init|exact Hraise|].
  apply (callbacks_raise_only_expected init _ _ reachable_init Hraise).
Defined.

Lemma name_owner_changed_without_raw_window_witness :
  reachable bound_act1 ∧
  accepts_name "org.laptop.Activity42" "" ":1.5" = true ∧
  _activities
    (_dbus_name_owner_changed_cb "org.laptop.Activity42" "" ":1.5" (Some S1)
       bound_act1).2 = _activities bound_act1.
Proof.
  assert (accepts_name "org.laptop.Activity42" "" ":1.5" = true →
          ∀ xid a obj, name_xid "org.laptop.Activity42" = inr xid →
                       _get_activity_by_xid xid bound_act1 = Some a →
                       heap bound_act1 !! a = Some obj →
                       class_of obj = HomeActivity) as Hraw.
  { intros _ xid a obj Hxid Hfind Hobj. vm_compute in Hxid.
    injection Hxid as <-. vm_compute in Hfind.
    injection Hfind as <-. vm_compute in Hobj. by injection Hobj as <-. }
  split_and!; [apply reachable_run_init|reflexivity|].
  apply (name_owner_changed_without_raw_window
           "org.laptop.Activity42" "" ":1.5" (Some S1) bound_act1
           (reachable_run_init _) Hraw).
Defined.

Lemma service_name_round_trip_witness :
  activity_service_name 42 = "org.laptop.Activity42" ∧
  names_window (activity_service_name 42) 42.
Proof. split; [reflexivity|]. apply (service_name_round_trip 42). Defined.

Lemma active_window_none_keeps_focus_witness :
  reachable focused_act1 ∧
  _current_activity (_active_window_changed_cb None focused_act1).2
    = _current_activity focused_act1.
Proof.
  split; [apply reachable_run_init|].
  apply (active_window_none_keeps_focus focused_act1 (reachable_run_init _)).
Defined.

Lemma active_window_found_takes_focus_witness :
  reachable bound_act1 ∧
  _get_activity_by_xid (window_xid W1) bound_act1 = Some 0 ∧
  _current_activity (_active_window_changed_cb (Some W1) bound_act1).2 = Some 0.
Proof.
  assert (_get_activity_by_xid (window_xid W1) bound_act1 = Some 0) as Hfind
    by reflexivity.
  split_and!; [apply reachable_run_init|exact Hfind|].
  apply (active_window_found_takes_focus bound_act1 W1 0
           (reachable_run_init _) eq_refl Hfind).
Defined.

Lemma window_opened_then_resolved_witness :
  reachable launching_act1 ∧
  _get_activity_by_xid (window_xid W1) launching_act1 = None ∧
  (_window_opened_cb W1 (Some S1) launching_act1).1 = inr () ∧
  ∃ a, _get_activity_by_xid (window_xid W1)
         (step launching_act1 (window_opened W1 (Some S1))) = Some a.
Proof.
  assert (_get_activity_by_xid (window_xid W1) launching_act1 = None) as Hfresh
    by reflexivity.
  assert ((_window_opened_cb W1 (Some S1) launching_act1).1 = inr ()) as Hok
    by reflexivity.
  split_and!; [apply reachable_run_init|exact Hfresh|exact Hok|].
  destruct (window_opened_then_resolved launching_act1 W1 (Some S1)
              (reachable_run_init _) eq_refl Hfresh Hok)
    as (a & obj & Hfind & _).
  exists a. exact Hfind.
Defined.

Lemma index_getitem_bounds_witness :
  reachable three_records ∧
  (__getitem__ three_records 3 = inl IndexError ↔
   ¬ (- Z.of_nat (__len__ three_records) ≤ 3
      < Z.of_nat (__len__ three_records))%Z).
Proof.
  split; [apply reachable_run_init|].
  apply (index_getitem_bounds three_records (reachable_run_init _)).
Defined.

Lemma window_opened_binds_registered_witness :
  _activities launching_act1 !! service_id S1 = Some 0 ∧
  heap launching_act1 !! 0 =
    Some (connect_launch_timeout
            (new_HomeActivity (BundleMetadata "Chat") "act1" 0)) ∧
  (_window_opened_cb W1 (Some S1) launching_act1).1 = inr ().
Proof.
  assert (_activities launching_act1 !! service_id S1 = Some 0) as Hkey
    by reflexivity.
  assert (heap launching_act1 !! 0 =
            Some (connect_launch_timeout
                    (new_HomeActivity (BundleMetadata "Chat") "act1" 0)))
    as Hobj by reflexivity.
  split_and!; [exact Hkey|exact Hobj|].
  apply (window_opened_binds_registered launching_act1 W1 S1 0 _
           eq_refl Hkey Hobj).
Defined.

Lemma focused_activity_is_launched_witness :
  reachable focused_act1 ∧
  get_current_activity focused_act1 = Some 0 ∧
  ∃ obj, heap focused_act1 !! 0 = Some obj ∧ get_launched obj = true.
Proof.
  assert (get_current_activity focused_act1 = Some 0) as Hfocus by reflexivity.
  split_and!; [apply reachable_run_init|exact Hfocus|].
  destruct (focused_activity_is_launched focused_act1
              (reachable_run_init _) 0 Hfocus) as (obj & Hobj & Hlaunched & _).
  exists obj. split; [exact Hobj|exact Hlaunched].
Defined.

Lemma window_closed_removes_found_witness :
  reachable bound_act1 ∧
  (_window_closed_cb W1 bound_act1).1 = inr ().
Proof.
  split; [apply reachable_run_init|].
  destruct (window_closed_removes_found bound_act1 W1
              (reachable_run_init _) eq_refl) as [Hok _].
  exact Hok.
Defined.

Lemma launch_then_failed_witness :
  reachable launching_act1 ∧
  get_bundle "Chat" = Some (BundleMetadata "Chat") ∧
  _activities (run launching_act1 [launch "act2" "Chat"; launch_failed "act2"])
    = delete "act2" (_activities launching_act1).
Proof.
  assert (get_bundle "Chat" = Some (BundleMetadata "Chat")) as Hbundle
    by reflexivity.
  split_and!; [apply reachable_run_init|exact Hbundle|].
  apply (launch_then_failed launching_act1 "act2" "Chat" _
           (reachable_run_init _) Hbundle).
Defined.

Lemma launch_then_timeout_witness :
  reachable init ∧
  get_bundle "Chat" = Some (BundleMetadata "Chat") ∧
  _activities (run init [launch "act1" "Chat";
                         launch_timeout (length (heap init))])
    = delete "act1" (_activities init).
Proof.
  assert (get_bundle "Chat" = Some (BundleMetadata "Chat")) as Hbundle
    by reflexivity.
  split_and!; [apply reachable_init|exact Hbundle|].
  apply (launch_then_timeout init "act1" "Chat" _ reachable_init Hbundle).
Defined.

Lemma raw_window_promotion_witness :
  reachable raw_and_launching ∧
  accepts_name "org.laptop.Activity42" "" ":1.5" = true ∧
  name_xid "org.laptop.Activity42" = inr 42%N ∧
  _get_activity_by_xid 42 raw_and_launching = Some 0 ∧
  heap raw_and_launching !! 0 = Some raw42 ∧
  (_dbus_name_owner_changed_cb "org.laptop.Activity42" "" ":1.5" (Some S3)
     raw_and_launching).1 = inl (RuntimeError "Paint").
Proof.
  assert (name_xid "org.laptop.Activity42" = inr 42%N) as Hxid by reflexivity.
  assert (_get_activity_by_xid 42 raw_and_launching = Some 0) as Hfind
    by reflexivity.
  assert (heap raw_and_launching !! 0 = Some raw42) as Hobj by reflexivity.
  assert (delete (get_activity_id raw42) (_activities raw_and_launching)
            !! service_id S3 = None) as Hfree by reflexivity.
  assert (get_bundle (service_type S3) = None) as Hbundle by reflexivity.
  split_and!;
    [apply reachable_run_init|reflexivity|exact Hxid|exact Hfind|exact Hobj|].
  destruct (raw_window_promotion raw_and_launching "org.laptop.Activity42" ""
              ":1.5" (Some S3) 42 0 raw42 (reachable_run_init _)
              eq_refl Hxid Hfind Hobj eq_refl)
    as (window & _ & _ & Hpromotion).
  cbv zeta in Hpromotion. rewrite Hfree, Hbundle in Hpromotion.
  exact (proj1 (proj2 Hpromotion)).
Defined.

Lemma removals_follow_announcements_witness :
  reachable (step bound_act1 (window_closed W1)) ∧
  trace (step bound_act1 (window_closed W1)) =
    [Emit (activity_launched 0); Emit (activity_added 0)]
      ++ Emit (activity_removed 0) :: [Emit (active_activity_changed None)] ∧
  (Emit (activity_added 0) ∈ [Emit (activity_launched 0); Emit (activity_added 0)]
   ∨ Emit (activity_launched 0)
       ∈ [Emit (activity_launched 0); Emit (activity_added 0)]).
Proof.
  assert (reachable (step bound_act1 (window_closed W1))) as Hst
    by (apply reachable_step, reachable_run_init).
  assert (trace (step bound_act1 (window_closed W1)) =
            [Emit (activity_launched 0); Emit (activity_added 0)]
              ++ Emit (activity_removed 0)
                 :: [Emit (active_activity_changed None)]) as Htrace
    by reflexivity.
  split_and!; [exact Hst|exact Htrace|].
  apply (removals_follow_announcements _ _ _ 0 Hst Htrace).
Defined.

End MoreExamples.
